(** * cogs/general.py: the [General] cog

    A shallow embedding of [General.on_message] (and of the [afk] command,
    the only other writer of the AFK registry) together with the regular
    expression [PULL_HASH_REGEX] it scans message contents with, followed
    by the slash commands [emoji add], [emoji delete], [suggest],
    [suggestions set], [suggestions disable] and [search] and the creation
    time [serverinfo] shows.

    - Python [str] values are lists of Unicode code points.
    - [self.bot.cache["afk"]], a [dict] from user id to reason, is a
      [gmap Z pystr].
    - The calls into the chat platform ([add_reaction], [edit], [send],
      [reply], [respond]) are logged in a trace; whether a call raises is
      decided by a [world], the one part of the run the handler does not
      control.
    - The iteration order of a Python [set] and the Unicode table behind
      [\d] are parameters of the development.
    - The author of a guild message is a [Member].  The author of a direct
      message is a [User], which has neither a nickname nor a nickname
      edit; [on_direct_message] and [afk_direct] are the two handlers as
      they run on one. *)

From Stdlib Require Import ZArith NArith String Ascii List Lia DecimalString.
From stdpp Require Import base numbers option list gmap strings.

Set Default Proof Using "Type".
Local Open Scope N_scope.

(** ** Strings *)

Definition char := N.
Definition pystr := list char.

(** A literal of the source, as code points. *)
Definition lit (s : string) : pystr :=
  List.map N_of_ascii (list_ascii_of_string s).

(** One character of the source. *)
Definition ch (a : ascii) : char := N_of_ascii a.

(** [s.startswith(p)] *)
Fixpoint startswith (p s : pystr) : bool :=
  match p, s with
  | [], _ => true
  | _ :: _, [] => false
  | a :: p', b :: s' => if decide (a = b) then startswith p' s' else false
  end.

(** [sep.join(parts)] *)
Fixpoint join (sep : pystr) (parts : list pystr) : pystr :=
  match parts with
  | [] => []
  | [x] => x
  | x :: rest => x ++ sep ++ join sep rest
  end.

(** Truth value of a [str]: the empty string is falsy. *)
Definition truthy (s : pystr) : bool :=
  match s with [] => false | _ :: _ => true end.

(** ** Regular expressions: the fragment [PULL_HASH_REGEX] is written in *)

Inductive regex : Type :=
| Chr (c : char)                        (* a literal character *)
| In (ranges : list (char * char))      (* [a-z...] *)
| Digit                                 (* \d *)
| Seq (r1 r2 : regex)                   (* r1 r2 *)
| Alt (r1 r2 : regex)                   (* r1|r2 *)
| Opt (r : regex)                       (* r?  (greedy) *)
| Plus (r : regex)                      (* r+  (greedy) *)
| Group (n : nat) (r : regex).          (* the n-th capturing group *)

Definition captures := gmap nat pystr.

(** [[0-9]] *)
Definition ascii_digit (c : char) : bool := (ch "0" <=? c) && (c <=? ch "9").

Definition in_ranges (ranges : list (char * char)) (c : char) : bool :=
  existsb (fun r => (fst r <=? c) && (c <=? snd r)) ranges.

Section Matcher.

(** [\d] on a [str] pattern is Unicode category Nd.  Below 128 these are
    the ten ASCII digits; the rest of the table belongs to the Python
    build and is a parameter. *)
Variable unicode_Nd : char -> bool.

Definition is_digit (c : char) : bool :=
  if c <? 128 then ascii_digit c else unicode_Nd c.

Section Backtrack.
Context {A : Type}.

(** The backtracking matcher, in continuation-passing style: [k] is what
    remains to be matched after [r]; a [None] from it makes the matcher
    try the next alternative, with the captures of the abandoned
    attempt dropped. *)
Fixpoint rmatch (r : regex) (s : pystr) (caps : captures)
         (k : pystr -> captures -> option A) {struct r} : option A :=
  match r with
  | Chr c =>
      match s with
      | c' :: s' => if decide (c' = c) then k s' caps else None
      | [] => None
      end
  | In ranges =>
      match s with
      | c' :: s' => if in_ranges ranges c' then k s' caps else None
      | [] => None
      end
  | Digit =>
      match s with
      | c' :: s' => if is_digit c' then k s' caps else None
      | [] => None
      end
  | Seq r1 r2 => rmatch r1 s caps (fun s' caps' => rmatch r2 s' caps' k)
  | Alt r1 r2 =>
      match rmatch r1 s caps k with
      | Some x => Some x
      | None => rmatch r2 s caps k
      end
  | Opt r1 =>
      match rmatch r1 s caps k with
      | Some x => Some x
      | None => k s caps
      end
  | Plus r1 =>
      (* one more round is tried only on a shorter rest, so [length s]
         rounds are all there can be *)
      (fix loop (fuel : nat) (s : pystr) (caps : captures) : option A :=
         rmatch r1 s caps (fun s' caps' =>
           match fuel with
           | S fuel' =>
               match (if (length s' <? length s)%nat
                      then loop fuel' s' caps' else None) with
               | Some x => Some x
               | None => k s' caps'
               end
           | O => k s' caps'
           end)) (length s) s caps
  | Group n r1 =>
      rmatch r1 s caps (fun s' caps' =>
        k s' (<[n := take (length s - length s') s]> caps'))
  end.
End Backtrack.

(** [pattern.match(s)]: the captures and the unread rest. *)
Definition match_here (r : regex) (s : pystr) : option (captures * pystr) :=
  rmatch r s ∅ (fun s' caps => Some (caps, s')).

(** A group that did not take part reads as [''] in [findall]. *)
Definition group (caps : captures) (n : nat) : pystr :=
  default [] (caps !! n).

(** [pattern.findall(s)] for a pattern of three groups: the matches from
    left to right, none overlapping, each as the tuple of its groups. *)
Fixpoint findall_from (fuel : nat) (r : regex) (s : pystr)
  : list (pystr * pystr * pystr) :=
  match fuel with
  | O => []
  | S fuel' =>
      match match_here r s with
      | Some (caps, rest) =>
          (group caps 1, group caps 2, group caps 3) ::
          (if (length rest <? length s)%nat
           then findall_from fuel' r rest
           else match s with
                | [] => []
                | _ :: s' => findall_from fuel' r s'
                end)
      | None =>
          match s with
          | [] => []
          | _ :: s' => findall_from fuel' r s'
          end
      end
  end.

Definition findall (r : regex) (s : pystr) : list (pystr * pystr * pystr) :=
  findall_from (S (length s)) r s.

End Matcher.

(** What [c+] means for a pattern [c] of one character: the longest run
    first, then shorter ones, until the rest of the pattern matches. *)
Fixpoint greedy_plus {A} (p : char -> bool) (s : pystr)
         (k : pystr -> option A) : option A :=
  match s with
  | c :: s' =>
      if p c
      then match greedy_plus p s' k with
           | Some x => Some x
           | None => k s'
           end
      else None
  | [] => None
  end.

(** [r] reads exactly one character, one that satisfies [p]. *)
Definition single_char (unicode_Nd : char -> bool) (r : regex)
           (p : char -> bool) : Prop :=
  forall A s caps (k : pystr -> captures -> option A),
    rmatch unicode_Nd r s caps k =
    match s with
    | c :: s' => if p c then k s' caps else None
    | [] => None
    end.

(** (?:[A-Za-z]|\d|-) *)
Definition name_char : regex :=
  Alt (In [(ch "A", ch "Z"); (ch "a", ch "z")]) (Alt Digit (Chr (ch "-"))).

(** The characters [name_char] accepts. *)
Definition is_name_char (unicode_Nd : char -> bool) (c : char) : bool :=
  in_ranges [(ch "A", ch "Z"); (ch "a", ch "z")] c || is_digit unicode_Nd c
  || bool_decide (c = ch "-").

(** (?:(?P<org>(?:[A-Za-z]|\d|-)+)/)?(?P<repo>(?:[A-Za-z]|\d|-)+)?(?:##)(?P<index>[0-9]+) *)
Definition PULL_HASH_REGEX : regex :=
  Seq (Opt (Seq (Group 1 (Plus name_char)) (Chr (ch "/"))))
 (Seq (Opt (Group 2 (Plus name_char)))
 (Seq (Seq (Chr (ch "#")) (Chr (ch "#")))
      (Group 3 (Plus (In [(ch "0", ch "9")]))))).

(** ** The platform: members, messages, calls and their outcomes *)

Record Member := {
  uid : Z;                       (* .id *)
  bot : bool;                    (* .bot *)
  nick : option pystr;           (* .nick, None without a guild nickname *)
  display_name : pystr           (* .display_name *)
}.

Record Message := {
  author : Member;
  content : pystr;
  mentions : list Member
}.

(** The calls the handlers make into the platform. *)
Inductive action : Type :=
| AddReaction (emoji : pystr)            (* message.add_reaction(emoji) *)
| EditNick (user : Z) (new_nick : pystr) (* member.edit(nick=new_nick) *)
| ChannelSend (text : pystr)             (* message.channel.send(text) *)
| Reply (text : pystr)                   (* message.reply(text) *)
| Respond (text : pystr).                (* ctx.respond(text) *)

(** What a call can raise.  [discord.Forbidden] and [discord.NotFound] are
    subclasses of [discord.HTTPException] and count as such. *)
Inductive exn : Type :=
| HTTPException
| KeyError
| OtherError.

Definition event : Type := action * option exn.

(** The outcome of the [n]-th call of a run: [None] when it goes through,
    [Some e] when it raises [e]. *)
Definition world : Type := nat -> action -> option exn.

Record state := {
  cache_afk : gmap Z pystr;      (* self.bot.cache["afk"] *)
  trace : list event             (* the calls made so far, oldest first *)
}.

Inductive result (A : Type) : Type :=
| Ok (a : A)
| Raised (e : exn).
Arguments Ok {A} a.
Arguments Raised {A} e.

(** Computations that read and write the state and may raise. *)
Definition M (A : Type) : Type := state -> result A * state.

Definition ret {A} (a : A) : M A := fun st => (Ok a, st).

Definition bind {A B} (m : M A) (f : A -> M B) : M B :=
  fun st =>
    match m st with
    | (Ok a, st') => f a st'
    | (Raised e, st') => (Raised e, st')
    end.

Notation "x <- m ;; k" := (bind m (fun x => k))
  (at level 100, m at next level, right associativity).
Notation "m ;;; k" := (bind m (fun _ => k))
  (at level 100, right associativity).

Definition get_afk : M (gmap Z pystr) := fun st => (Ok (cache_afk st), st).

(** [cache["afk"][k] = v] *)
Definition set_afk (k : Z) (v : pystr) : M unit :=
  fun st => (Ok tt, {| cache_afk := <[k := v]> (cache_afk st); trace := trace st |}).

(** [del cache["afk"][k]], a [KeyError] when [k] is absent. *)
Definition del_afk (k : Z) : M unit :=
  fun st =>
    match cache_afk st !! k with
    | Some _ => (Ok tt, {| cache_afk := delete k (cache_afk st); trace := trace st |})
    | None => (Raised KeyError, st)
    end.

(** [with suppress(discord.HTTPException): body] *)
Definition suppress_HTTPException (body : M unit) : M unit :=
  fun st =>
    match body st with
    | (Raised HTTPException, st') => (Ok tt, st')
    | other => other
    end.

(** [for x in l: body(x)] *)
Fixpoint for_each {A} (l : list A) (body : A -> M unit) : M unit :=
  match l with
  | [] => ret tt
  | x :: rest => body x ;;; for_each rest body
  end.

(** The wave emoji, U+1F44B. *)
Definition wave : pystr := [128075].

Definition AFK_PREFIX : pystr := lit "[AFK] ".

(** The line feed that ["\n".join] puts between links, U+000A. *)
Definition newline : pystr := [10].

(** [make_link], the local function of [on_message]. *)
Definition make_link (index org repo : pystr) : pystr :=
  let org := if truthy org then org else lit "Pycord-Development" in
  let repo := if truthy repo then repo else lit "pycord" in
  lit "https://github.com/" ++ org ++ lit "/" ++ repo ++ lit "/pull/" ++ index.

Definition angle (link : pystr) : pystr := lit "<" ++ link ++ lit ">".

Section Handlers.

Variable w : world.
Variable unicode_Nd : char -> bool.
(** [list(set(xs))]: the elements of [xs] in the order the set built from
    them is iterated. *)
Variable set_iter : list pystr -> list pystr.

(** [await call]: made, logged, and raising when the world says so. *)
Definition call (a : action) : M unit :=
  fun st =>
    let o := w (length (trace st)) a in
    (match o with None => Ok tt | Some e => Raised e end,
     {| cache_afk := cache_afk st; trace := trace st ++ [(a, o)] |}).

(** The [afk] command (lines 216-222). *)
Definition afk (ctx_author : Member) (reason : pystr) (change_nick : bool)
  : M unit :=
  call (Respond (lit "Set your AFK: " ++ reason)) ;;;
  set_afk (uid ctx_author) reason ;;;
  if change_nick && negb (startswith AFK_PREFIX (display_name ctx_author))
  then suppress_HTTPException
         (call (EditNick (uid ctx_author)
                  (AFK_PREFIX ++ display_name ctx_author)))
  else ret tt.

(** Lines 230-235: the author is back. *)
Definition afk_clear (message : Message) : M unit :=
  reg <- get_afk ;;
  if decide (uid (author message) ∈ dom reg) then
    del_afk (uid (author message)) ;;;
    call (AddReaction wave) ;;;
    match nick (author message) with
    | Some n =>
        if truthy n && startswith AFK_PREFIX n
        then suppress_HTTPException
               (call (EditNick (uid (author message)) (drop 6 n)))
        else ret tt
    | None => ret tt
    end
  else ret tt.

(** Lines 237-238: the body of the mention loop. *)
Definition notify_mention (mention : Member) : M unit :=
  reg <- get_afk ;;
  match reg !! uid mention with
  | Some msg =>
      if truthy msg
      then call (ChannelSend (display_name mention ++ lit " is AFK: " ++ msg))
      else ret tt
  | None => ret tt
  end.

(** Lines 236-238: tell the channel about mentioned users who are away. *)
Definition afk_notify (message : Message) : M unit :=
  for_each (mentions message) notify_mention.

(** Lines 246-251: [list(set(make_link(...) for ... in findall))[:15]]. *)
Definition extract_urls (text : pystr) : list pystr :=
  List.map (fun '(org, repo, index) => make_link index org repo)
           (findall unicode_Nd PULL_HASH_REGEX text).

Definition url_set (text : pystr) : list pystr :=
  set_iter (extract_urls text).

Definition links (text : pystr) : list pystr :=
  take 15 (url_set text).

(** Lines 252-253. *)
Definition reply_links (text : pystr) : list pystr :=
  let links := links text in
  if (2 <? length links)%nat then List.map angle links else links.

(** Lines 240-255: pull requests and issues. *)
Definition expand_references (message : Message) : M unit :=
  let links := reply_links (content message) in
  match links with
  | [] => ret tt
  | _ :: _ => call (Reply (join newline links))
  end.

(** [General.on_message] (lines 225-255). *)
Definition on_message (message : Message) : M unit :=
  if bot (author message) then ret tt
  else
    afk_clear message ;;;
    afk_notify message ;;;
    expand_references message.

End Handlers.

(** ** Reading a trace *)

Definition reactions (evs : list event) : list pystr :=
  omap (fun e => match fst e with AddReaction x => Some x | _ => None end) evs.

Definition sends (evs : list event) : list pystr :=
  omap (fun e => match fst e with ChannelSend x => Some x | _ => None end) evs.

Definition replies (evs : list event) : list pystr :=
  omap (fun e => match fst e with Reply x => Some x | _ => None end) evs.

(** The calls a computation adds to the trace when run from [st]. *)
Definition emitted {A} (m : M A) (st : state) : list event :=
  drop (length (trace st)) (trace (snd (m st))).

(** What the mention loop is expected to send, given the registry it reads. *)
Definition afk_replies (reg : gmap Z pystr) (ms : list Member) : list pystr :=
  omap (fun mention =>
          match reg !! uid mention with
          | Some msg =>
              if truthy msg
              then Some (display_name mention ++ lit " is AFK: " ++ msg)
              else None
          | None => None
          end) ms.

(** The test of line 230. *)
Definition is_afk (reg : gmap Z pystr) (u : Z) : bool :=
  bool_decide (u ∈ dom reg).

(** The entries the registry holds for one user. *)
Definition entries (reg : gmap Z pystr) (u : Z) : list (Z * pystr) :=
  filter (fun e => fst e = u) (map_to_list reg).

(** A computation seen from outside: its result, the registry it leaves and
    the calls it made. *)
Definition runs (m : M unit) (st : state) (res : result unit)
           (reg' : gmap Z pystr) (evs : list event) : Prop :=
  m st = (res, {| cache_afk := reg'; trace := trace st ++ evs |}).

(** What [expand_references] is expected to reply with. *)
Definition link_reply (ls : list pystr) : list pystr :=
  match ls with
  | [] => []
  | _ :: _ => [join newline ls]
  end.

(** At most one entry per user, and the membership test of line 230 says
    no exactly when there is none. *)
Definition registry_inv (reg : gmap Z pystr) : Prop :=
  forall u,
    (length (entries reg u) <= 1)%nat /\
    (is_afk reg u = false <-> entries reg u = []).

(** Every call goes through. *)
Definition calm : world := fun _ _ => None.

(** The platform refuses reactions (the author has blocked the bot, or the
    bot may not add reactions in the channel). *)
Definition reactions_denied : world :=
  fun _ a => match a with AddReaction _ => Some HTTPException | _ => None end.

(** The platform refuses nickname edits (the member ranks above the bot). *)
Definition renames_denied : world :=
  fun _ a => match a with EditNick _ _ => Some HTTPException | _ => None end.

(** A nickname edit that fails below the HTTP layer (a connection reset). *)
Definition renames_crash : world :=
  fun _ a => match a with EditNick _ _ => Some OtherError | _ => None end.

(** A Unicode table with no decimal digit beyond ASCII in it. *)
Definition no_extra_digits : char -> bool := fun _ => false.

(** What the handler may assume of [list(set(xs))]: every element of [xs],
    once. *)
Definition set_order_ok (set_iter : list pystr -> list pystr) : Prop :=
  forall l, NoDup (set_iter l) /\ forall x, x ∈ set_iter l <-> x ∈ l.

(** Two iteration orders to run examples with. *)
Definition kept_last : list pystr -> list pystr := remove_dups.
Definition kept_last_reversed : list pystr -> list pystr :=
  fun l => reverse (remove_dups l).

(** The replies the specification asks of the mention loop: one per mention,
    in the order given, of a user with an entry in [reg]. *)
Definition mention_replies (reg : gmap Z pystr) (ms : list Member)
  : list pystr :=
  flat_map (fun mention =>
              match reg !! uid mention with
              | Some reason =>
                  [display_name mention ++ lit " is AFK: " ++ reason]
              | None => []
              end) ms.

(** Sample members, registries and messages. *)
Definition alice : Member :=
  {| uid := 1001; bot := false;
     nick := Some (lit "[AFK] Alice"); display_name := lit "[AFK] Alice" |}.

Definition bob : Member :=
  {| uid := 1002; bot := false; nick := None; display_name := lit "Bob" |}.

Definition helper_bot : Member :=
  {| uid := 1003; bot := true; nick := None; display_name := lit "Helper" |}.

Definition alice_away : state :=
  {| cache_afk := {[ 1001%Z := lit "lunch" ]}; trace := [] |}.

Definition both_away : state :=
  {| cache_afk := <[ 1002%Z := lit "asleep" ]> {[ 1001%Z := lit "lunch" ]};
     trace := [] |}.

Definition fresh : state := {| cache_afk := ∅; trace := [] |}.

Definition alice_returns : Message :=
  {| author := alice; content := lit "see ##7"; mentions := [bob] |}.

Definition alice_pings_herself : Message :=
  {| author := alice; content := lit "back"; mentions := [alice] |}.

Definition bob_pings_alice : Message :=
  {| author := bob; content := lit "Fixes foo/bar##42 and ##43";
     mentions := [alice] |}.

Definition bot_chatter : Message :=
  {| author := helper_bot; content := lit "##1 ##2 ##3"; mentions := [alice] |}.

Definition bob_cites_three : Message :=
  {| author := bob; content := lit "##1 and ##2, then ##3"; mentions := [] |}.

Definition fixes_example : pystr := lit "Fixes foo/bar##42 and ##43".

Definition twenty_refs : pystr :=
  lit "##1 ##2 ##3 ##4 ##5 ##6 ##7 ##8 ##9 ##10 ##11 ##12 ##13 ##14 ##15 ##16 ##17 ##18 ##19 ##20".

(** ** The shorthand the pattern reads *)

(** (?:##)(?P<index>[0-9]+) *)
Definition INDEX_PART : regex :=
  Seq (Seq (Chr (ch "#")) (Chr (ch "#"))) (Group 3 (Plus (In [(ch "0", ch "9")]))).

(** (?P<repo>(?:[A-Za-z]|\d|-)+)?(?:##)(?P<index>[0-9]+) *)
Definition REPO_PART : regex :=
  Seq (Opt (Group 2 (Plus name_char))) INDEX_PART.

(** [org/repo##index] as a user writes it; an empty [org] or [repo] is one
    left out. *)
Definition shorthand (org repo index : pystr) : pystr :=
  (if truthy org then org ++ lit "/" else []) ++ repo ++ lit "##" ++ index.

(** The first character of [s] satisfies [p]. *)
Definition starts_with_char (p : char -> bool) (s : pystr) : bool :=
  match s with
  | c :: _ => p c
  | [] => false
  end.

(** Two [#] in a row somewhere in [s]. *)
Fixpoint has_double_hash (s : pystr) : bool :=
  match s with
  | a :: (b :: _) as rest =>
      (bool_decide (a = ch "#") && bool_decide (b = ch "#"))
      || has_double_hash rest
  | _ => false
  end.

(** The URL of a pull request. *)
Definition pull_url (org repo index : pystr) : pystr :=
  lit "https://github.com/" ++ org ++ lit "/" ++ repo ++ lit "/pull/" ++ index.

(** The captures a match of [PULL_HASH_REGEX] leaves for the three parts. *)
Definition captures_of (org repo index : pystr) : captures :=
  <[3%nat := index]>
    ((if truthy repo then <[2%nat := repo]> else id)
       ((if truthy org then <[1%nat := org]> else id) ∅)).

(** ** More ways to read a trace *)

Definition nick_edits (evs : list event) : list (Z * pystr) :=
  omap (fun e => match fst e with EditNick u x => Some (u, x) | _ => None end) evs.

Definition responses (evs : list event) : list pystr :=
  omap (fun e => match fst e with Respond x => Some x | _ => None end) evs.

(** A computation that only adds to the trace, calls answered by the world
    [w], and that raises nothing of its own: what it raises, its last call
    raised. *)
Definition platform_errors_only {A} (w : world) (m : M A) : Prop :=
  forall st,
    exists evs,
      trace (snd (m st)) = trace st ++ evs /\
      (forall a o, (a, o) ∈ evs -> exists n, o = w n a) /\
      forall e, fst (m st) = Raised e ->
                exists a, last evs = Some (a, Some e).

(** The platform lets every call through. *)
Definition obliging (w : world) : Prop := forall n a, w n a = None.

(** The member as the platform shows them once the nickname asked for by
    [afk] is in place. *)
Definition marked_afk (who : Member) : Member :=
  {| uid := uid who; bot := bot who;
     nick := Some (AFK_PREFIX ++ display_name who);
     display_name := AFK_PREFIX ++ display_name who |}.

(** The calls the clear phase makes for an author who is AFK, with the
    answers [o1] and [o2] of the platform. *)
Definition clear_calls (message : Message) (o1 o2 : option exn) : list event :=
  (AddReaction wave, o1) ::
  match o1, nick (author message) with
  | None, Some n =>
      if truthy n && startswith AFK_PREFIX n
      then [(EditNick (uid (author message)) (drop 6 n), o2)]
      else []
  | _, _ => []
  end.

Definition is_send (ev : event) : Prop := exists text, fst ev = ChannelSend text.

(** ** serverinfo: the creation time shown for a guild *)

(** [((guild.id >> 22) + 1420070400000) // 1000] (line 26): the seconds
    since 1970 at which the snowflake [guild_id] was made. *)
Definition creation (guild_id : Z) : Z :=
  ((Z.shiftr guild_id 22 + 1420070400000) / 1000)%Z.

(** A snowflake: the milliseconds since the first second of 2015 above 22
    bits of worker, process and sequence number. *)
Definition snowflake (ms low : Z) : Z := Z.lor (Z.shiftl ms 22) low.

(** ** The slash commands *)

(** [str(n)] for an [int]. *)
Definition str_int (n : Z) : pystr :=
  lit (DecimalString.NilZero.string_of_int (Z.to_int n)).

(** The double quote, U+0022. *)
Definition dquote : pystr := [34].

Record Emoji := {
  emoji_name : pystr;            (* .name *)
  emoji_id : Z
}.

Record Channel := {
  channel_id : Z;
  channel_mention : pystr        (* .mention *)
}.

(** [discord.Embed(description=..., colour=discord.Color.blurple())
      .set_author(name=..., icon_url=...).set_footer(text=...)] *)
Record Embed := {
  description : pystr;
  author_name : pystr;
  author_icon_url : pystr;
  footer_text : pystr
}.

(** What a command sees of its [ApplicationContext]. *)
Record Context := {
  ctx_author_id : Z;             (* ctx.author.id *)
  ctx_author_str : pystr;        (* str(ctx.author) *)
  ctx_author_avatar : pystr;     (* ctx.author.display_avatar.url *)
  ctx_guild_id : Z;              (* ctx.guild_id *)
  ctx_guild_emojis : list Emoji  (* ctx.guild.emojis *)
}.

(** The answer of the web server that [emoji add] asks for the image. *)
Record HttpResponse := {
  status : Z;
  http_reason : pystr;           (* .reason *)
  body : list Z                  (* await res.read() *)
}.

(** The calls the commands make: into the platform, the web and the guild
    table. *)
Inductive request : Type :=
| CtxRespond (text : pystr) (ephemeral : bool)
    (* ctx.respond(text), ctx.respond(text, ephemeral=True) *)
| CtxRespondView (text : pystr) (buttons : list (pystr * pystr))
    (* ctx.respond(text, view=View(Button(label=, url=), ...)) *)
| EmojiDelete (emoji : Z) (reason : option pystr)   (* emoji.delete(reason=) *)
| HttpGet (url : pystr)                      (* http_session.get(url) *)
| HttpRead                                   (* res.read() *)
| CreateCustomEmoji (name : pystr) (image : list Z)
| GetTextChannel (guild : Z) (key : pystr)   (* GuildModel.get_text_channel *)
| SendEmbed (channel : Z) (embed : Embed)    (* channel.send(embed=) *)
| MsgAddReaction (msg : Z) (emoji : pystr)   (* msg.add_reaction(emoji) *)
| UpdateOrCreate (guild : Z) (suggestions : Z)
    (* GuildModel.update_or_create(id=, defaults={"suggestions": }) *)
| FilterFirst (guild : Z)
    (* GuildModel.filter(id=).exclude(suggestions=0).first() *)
| SaveSuggestions (guild : Z) (suggestions : Z).
    (* guild.update_from_dict({"suggestions": }).save() *)

Definition cworld : Type := nat -> request -> option exn.

(** The state the commands run in: the [suggestions] column of the guild
    table, by guild id (the commands read and write no other column), and
    the calls made so far. *)
Record cstate := {
  suggestions_of : gmap Z Z;
  calls : list (request * option exn)
}.

Definition C (A : Type) : Type := cstate -> result A * cstate.


Definition cbind {A B} (m : C A) (f : A -> C B) : C B :=
  fun st =>
    match m st with
    | (Ok a, st') => f a st'
    | (Raised e, st') => (Raised e, st')
    end.

Declare Scope cmd_scope.
Delimit Scope cmd_scope with cmd.
Notation "x <- m ;; k" := (cbind m (fun x => k))
  (at level 100, m at next level, right associativity) : cmd_scope.
Notation "m ;;; k" := (cbind m (fun _ => k))
  (at level 100, right associativity) : cmd_scope.

Definition get_table : C (gmap Z Z) := fun st => (Ok (suggestions_of st), st).

Definition put_suggestions (guild c : Z) : C unit :=
  fun st => (Ok tt, {| suggestions_of := <[guild := c]> (suggestions_of st);
                       calls := calls st |}).

(** The calls a command adds when run from [st]. *)
Definition made {A} (m : C A) (st : cstate) : list (request * option exn) :=
  drop (length (calls st)) (calls (snd (m st))).

Definition requests {A} (m : C A) (st : cstate) : list request :=
  List.map fst (made m st).


Section Commands.

Variable w : cworld.

(** [await call]: made, logged, and raising when the world says so. *)
Definition ccall (r : request) : C unit :=
  fun st =>
    let o := w (length (calls st)) r in
    (match o with None => Ok tt | Some e => Raised e end,
     {| suggestions_of := suggestions_of st; calls := calls st ++ [(r, o)] |}).

(** [emoji delete] (lines 195-203): the loop over the guild's emojis. *)
Fixpoint emoji_delete_loop (emojis : list Emoji) (name : pystr)
         (reason : option pystr) : C unit :=
  match emojis with
  | [] => ccall (CtxRespond (lit "No emoji named " ++ dquote ++ name
                             ++ dquote ++ lit " found.") false)
  | emoji :: rest =>
      if decide (emoji_name emoji = name) then
        (ccall (EmojiDelete (emoji_id emoji) reason) ;;;
         ccall (CtxRespond (lit "Successfully deleted `:" ++ name ++ lit ":`.")
                  false))%cmd
      else emoji_delete_loop rest name reason
  end.

Definition emoji_delete (ctx : Context) (name : pystr) (reason : option pystr)
  : C unit :=
  emoji_delete_loop (ctx_guild_emojis ctx) name reason.

(** [emoji add] (lines 177-188).  [res] is the answer the web server gives
    and [created] the text of the emoji the platform returns, when the
    calls for them go through. *)
Definition emoji_add (ctx : Context) (name url : pystr)
           (res : HttpResponse) (created : pystr) : C unit :=
  (ccall (HttpGet url) ;;;
   if ((status res <? 300) && (200 <=? status res))%Z then
     ccall HttpRead ;;;
     ccall (CreateCustomEmoji name (body res)) ;;;
     ccall (CtxRespond (created ++ lit " Successfully created emoji.") false)
   else
     ccall (CtxRespond
              (lit "An HTTP error has occured while fetching the image: "
               ++ str_int (status res) ++ lit " " ++ http_reason res) false))%cmd.


(** [suggestions set] (lines 107-114). *)
Definition suggestions_set (ctx : Context) (channel : Channel) : C unit :=
  (ccall (UpdateOrCreate (ctx_guild_id ctx) (channel_id channel)) ;;;
   put_suggestions (ctx_guild_id ctx) (channel_id channel) ;;;
   ccall (CtxRespond (lit "Member suggestions will now be sent to "
                      ++ channel_mention channel ++ lit ".") false))%cmd.

(** [suggestions disable] (lines 117-128). *)
Definition suggestions_disable (ctx : Context) : C unit :=
  (ccall (FilterFirst (ctx_guild_id ctx)) ;;;
   table <- get_table ;;
   match table !! ctx_guild_id ctx with
   | Some c =>
       if decide (c = 0%Z) then
         ccall (CtxRespond
                  (lit "Member suggestions are already disabled for this server.")
                  false)
       else
         ccall (SaveSuggestions (ctx_guild_id ctx) 0) ;;;
         put_suggestions (ctx_guild_id ctx) 0 ;;;
         ccall (CtxRespond
                  (lit "Member suggestions have been disabled for this server.")
                  false)
   | None =>
       ccall (CtxRespond
                (lit "Member suggestions are already disabled for this server.")
                false)
   end)%cmd.

End Commands.

(** ** urllib.parse.urlencode, as [search] calls it *)

(** The bytes [quote] leaves as they are: letters, digits and [_.-~]. *)
Definition is_unreserved (b : N) : bool :=
  in_ranges [(ch "A", ch "Z"); (ch "a", ch "z"); (ch "0", ch "9")] b
  || bool_decide (b = ch "_") || bool_decide (b = ch ".")
  || bool_decide (b = ch "-") || bool_decide (b = ch "~").

(** One hexadecimal digit, upper case. *)
Definition hex_digit (n : N) : char :=
  if n <? 10 then ch "0" + n else ch "A" + (n - 10).

(** [quote_plus] on one byte: kept, or a space turned into [+], or
    [%XX]. *)
Definition quote_byte (b : N) : pystr :=
  if is_unreserved b then [b]
  else if b =? ch " " then [ch "+"]
  else [ch "%"; hex_digit (b / 16); hex_digit (b mod 16)].

(** The UTF-8 bytes of one code point; [None] for a surrogate, which
    [str.encode] refuses, and beyond U+10FFFF. *)
Definition utf8 (c : char) : option (list N) :=
  if c <? 128 then Some [c]
  else if c <? 2048 then Some [192 + c / 64; 128 + c mod 64]
  else if c <? 65536 then
    if (55296 <=? c) && (c <? 57344) then None
    else Some [224 + c / 4096; 128 + (c / 64) mod 64; 128 + c mod 64]
  else if c <? 1114112 then
    Some [240 + c / 262144; 128 + (c / 4096) mod 64;
          128 + (c / 64) mod 64; 128 + c mod 64]
  else None.

(** [s.encode("utf-8")] *)
Fixpoint encode_utf8 (s : pystr) : option (list N) :=
  match s with
  | [] => Some []
  | c :: rest =>
      match utf8 c, encode_utf8 rest with
      | Some bs, Some more => Some (bs ++ more)
      | _, _ => None
      end
  end.

(** [quote_plus(s)] *)
Definition quote_plus (s : pystr) : option pystr :=
  match encode_utf8 s with
  | Some bs => Some (flat_map quote_byte bs)
  | None => None
  end.

(** [parse.urlencode({"q": query})] (line 154) *)
Definition urlencode_q (query : pystr) : option pystr :=
  match quote_plus query with
  | Some v => Some (lit "q=" ++ v)
  | None => None
  end.

(** The characters an encoded query is made of. *)
Definition url_safe (c : char) : bool :=
  is_unreserved c || bool_decide (c = ch "+") || bool_decide (c = ch "%").

(** The three buttons of [search] (lines 157-167). *)
Definition search_buttons (param : pystr) : list (pystr * pystr) :=
  [(lit "Google", lit "https://www.google.com/search?" ++ param);
   (lit "Bing", lit "https://www.bing.com/search?" ++ param);
   (lit "DuckDuckGo", lit "https://www.duckduckgo.com/?" ++ param)].

(** [search] (lines 152-168); a query that cannot be encoded makes
    [urlencode] raise [UnicodeEncodeError] before anything is sent. *)
Definition search (w : cworld) (ctx : Context) (query : pystr) : C unit :=
  match urlencode_q query with
  | None => fun st => (Raised OtherError, st)
  | Some param =>
      ccall w (CtxRespondView
                 (lit "Use the buttons below to search for `" ++ query
                  ++ lit "` on the internet.")
                 (search_buttons param))
  end.



(** The platform lets every call of a command through. *)
Definition cobliging (w : cworld) : Prop := forall n r, w n r = None.

Definition ccalm : cworld := fun _ _ => None.

(** The emojis a command asked to delete, the emojis it asked to create and
    the responses it gave. *)
Definition deletions (evs : list (request * option exn)) : list Z :=
  omap (fun ev => match fst ev with EmojiDelete e _ => Some e | _ => None end) evs.

Definition creations (evs : list (request * option exn)) : list pystr :=
  omap (fun ev => match fst ev with
                  | CreateCustomEmoji n _ => Some n
                  | _ => None
                  end) evs.

Definition cresponses (evs : list (request * option exn)) : list pystr :=
  omap (fun ev => match fst ev with
                  | CtxRespond t _ => Some t
                  | CtxRespondView t _ => Some t
                  | _ => None
                  end) evs.

(** The first emoji of the guild with the given name, if any. *)
Definition first_named (emojis : list Emoji) (name : pystr) : option Emoji :=
  List.find (fun e => bool_decide (emoji_name e = name)) emojis.

(** ** Direct messages *)

(** The handlers above take the author as a [discord.Member], which has a
    [.nick] and an [.edit] that sets one.  In a direct message the author is
    a [discord.User]: it has [.id], [.bot] and [.display_name], and reading
    [.nick] or [.edit] on it raises [AttributeError], an error of the
    handler's own ([OtherError] here) that no [suppress] of the source
    catches. *)
Record User := {
  user_id : Z;                   (* .id *)
  user_bot : bool;               (* .bot *)
  user_display_name : pystr      (* .display_name *)
}.

Record DirectMessage := {
  dm_author : User;
  dm_content : pystr;
  dm_mentions : list User
}.

(** The mention loop reads [.id] and [.display_name] only. *)
Definition as_mention (u : User) : Member :=
  {| uid := user_id u; bot := user_bot u; nick := None;
     display_name := user_display_name u |}.

(** A direct message read as a guild message, for the runs in which neither
    [.nick] nor [.edit] is looked at. *)
Definition as_message (dm : DirectMessage) : Message :=
  {| author := as_mention (dm_author dm); content := dm_content dm;
     mentions := List.map as_mention (dm_mentions dm) |}.

(** [AttributeError], raised by the attribute look-up itself. *)
Definition raise_attribute_error : M unit := fun st => (Raised OtherError, st).

(** Lines 230-235 for a [discord.User]: line 233 reads [.nick]. *)
Definition afk_clear_direct (w : world) (dm : DirectMessage) : M unit :=
  reg <- get_afk ;;
  if decide (user_id (dm_author dm) ∈ dom reg) then
    del_afk (user_id (dm_author dm)) ;;;
    call w (AddReaction wave) ;;;
    raise_attribute_error
  else ret tt.

(** [General.on_message] (lines 225-255) for a direct message. *)
Definition on_direct_message (w : world) (unicode_Nd : char -> bool)
           (set_iter : list pystr -> list pystr) (dm : DirectMessage) : M unit :=
  if user_bot (dm_author dm) then ret tt
  else
    afk_clear_direct w dm ;;;
    for_each (List.map as_mention (dm_mentions dm)) (notify_mention w) ;;;
    match reply_links unicode_Nd set_iter (dm_content dm) with
    | [] => ret tt
    | l :: ls => call w (Reply (join newline (l :: ls)))
    end.

(** The [afk] command (lines 216-222) in a direct message: line 222 reads
    [.edit]. *)
Definition afk_direct (w : world) (who : User) (reason : pystr)
           (change_nick : bool) : M unit :=
  call w (Respond (lit "Set your AFK: " ++ reason)) ;;;
  set_afk (user_id who) reason ;;;
  if change_nick && negb (startswith AFK_PREFIX (user_display_name who))
  then raise_attribute_error
  else ret tt.

(** ** The lines of a reply *)

(** [s.split(sep)] for a separator of one character. *)
Fixpoint split_on (sep : char) (s : pystr) : list pystr :=
  match s with
  | [] => [[]]
  | c :: rest =>
      if decide (c = sep) then [] :: split_on sep rest
      else match split_on sep rest with
           | line :: more => (c :: line) :: more
           | [] => [[c]]
           end
  end.

(** The line feed as a character. *)
Definition LF : char := 10.

Arguments lit : simpl never.
Arguments startswith : simpl never.
Arguments AFK_PREFIX : simpl never.
Arguments wave : simpl never.
Arguments newline : simpl never.
Arguments make_link : simpl never.

(** ** The pattern on examples *)

Example findall_ex1 :
  findall no_extra_digits PULL_HASH_REGEX (lit "Fixes foo/bar##42 and ##43")
  = [(lit "foo", lit "bar", lit "42"); ([], [], lit "43")].
Proof. vm_compute. reflexivity. Qed.

Example findall_ex2 :
  findall no_extra_digits PULL_HASH_REGEX (lit "a/b/c##1 x##y##7 -/-##08z")
  = [(lit "b", lit "c", lit "1"); ([], lit "y", lit "7");
     (lit "-", lit "-", lit "08")].
Proof. vm_compute. reflexivity. Qed.

(** ** Lemmas on traces *)

Lemma reactions_app evs1 evs2 :
  reactions (evs1 ++ evs2) = reactions evs1 ++ reactions evs2.
Proof. apply omap_app. Qed.

Lemma sends_app evs1 evs2 : sends (evs1 ++ evs2) = sends evs1 ++ sends evs2.
Proof. apply omap_app. Qed.

Lemma replies_app evs1 evs2 :
  replies (evs1 ++ evs2) = replies evs1 ++ replies evs2.
Proof. apply omap_app. Qed.

Lemma emitted_app {A} (m : M A) st evs :
  trace (snd (m st)) = trace st ++ evs -> emitted m st = evs.
Proof. intros E. unfold emitted. rewrite E. apply drop_app_length. Qed.

Lemma afk_replies_cons reg mention ms :
  afk_replies reg (mention :: ms) =
  match reg !! uid mention with
  | Some msg =>
      if truthy msg then [display_name mention ++ lit " is AFK: " ++ msg] else []
  | None => []
  end ++ afk_replies reg ms.
Proof.
  unfold afk_replies. simpl.
  destruct (reg !! uid mention) as [msg|]; [|done]. by destruct (truthy msg).
Qed.

(** ** The three phases of [on_message], one at a time *)

Section Phases.

Variable w : world.
Variable unicode_Nd : char -> bool.
Variable set_iter : list pystr -> list pystr.


Lemma runs_ret st : runs (ret tt) st (Ok tt) (cache_afk st) [].
Proof. unfold runs, ret. rewrite app_nil_r. by destruct st. Qed.

Lemma runs_call a st :
  runs (call w a) st
       (match w (length (trace st)) a with None => Ok tt | Some e => Raised e end)
       (cache_afk st) [(a, w (length (trace st)) a)].
Proof. reflexivity. Qed.

Lemma runs_bind (m1 m2 : M unit) st res1 reg1 evs1 :
  runs m1 st res1 reg1 evs1 ->
  match res1 with
  | Ok _ =>
      forall res2 reg2 evs2,
        runs m2 {| cache_afk := reg1; trace := trace st ++ evs1 |} res2 reg2 evs2 ->
        runs (m1 ;;; m2) st res2 reg2 (evs1 ++ evs2)
  | Raised e => runs (m1 ;;; m2) st (Raised e) reg1 evs1
  end.
Proof.
  unfold runs, bind. intros ->. destruct res1 as [[]|e]; [|done].
  intros res2 reg2 evs2 ->. simpl. by rewrite app_assoc.
Qed.

Lemma runs_total (m : M unit) st :
  (exists evs, trace (snd (m st)) = trace st ++ evs) ->
  exists res reg' evs, runs m st res reg' evs.
Proof.
  intros [evs E]. destruct (m st) as [res [reg' tr]] eqn:Hm. simpl in E.
  exists res, reg', evs. unfold runs. by rewrite Hm, E.
Qed.

Local Ltac close_run := split_and!; try done; intros; congruence.

(** Lines 230-235. *)
Lemma afk_clear_runs message st :
  exists res evs,
    runs (afk_clear w message) st res
         (delete (uid (author message)) (cache_afk st)) evs /\
    reactions evs =
      (if is_afk (cache_afk st) (uid (author message)) then [wave] else []) /\
    sends evs = [] /\ replies evs = [] /\
    (is_afk (cache_afk st) (uid (author message)) = false ->
     res = Ok tt /\ evs = []).
Proof.
  unfold afk_clear, is_afk, runs, bind, get_afk, del_afk.
  destruct (decide (uid (author message) ∈ dom (cache_afk st))) as [Hin|Hout].
  - rewrite bool_decide_eq_true_2 by done.
    apply elem_of_dom in Hin as [r Hr]. rewrite Hr.
    unfold suppress_HTTPException, call, ret. simpl.
    destruct (w (length (trace st)) (AddReaction wave)) as [e|].
    { exists (Raised e), [(AddReaction wave, Some e)]. close_run. }
    destruct (nick (author message)) as [n|]; simpl;
      [|exists (Ok tt), [(AddReaction wave, None)]; close_run].
    destruct (truthy n && startswith AFK_PREFIX n); simpl;
      [|exists (Ok tt), [(AddReaction wave, None)]; close_run].
    set (a := EditNick _ _).
    destruct (w (length (trace st ++ [(AddReaction wave, None)])) a)
      as [e|] eqn:Hw2.
    + exists (match e with HTTPException => Ok tt | _ => Raised e end),
             [(AddReaction wave, None); (a, Some e)].
      rewrite <- app_assoc. destruct e; close_run.
    + exists (Ok tt), [(AddReaction wave, None); (a, None)].
      rewrite <- app_assoc. close_run.
  - rewrite bool_decide_eq_false_2 by done.
    exists (Ok tt), []. rewrite app_nil_r.
    rewrite delete_id by (by apply not_elem_of_dom).
    unfold ret. destruct st; close_run.
Qed.

(** Lines 236-238. *)
Lemma afk_notify_runs message st :
  exists res evs,
    runs (afk_notify w message) st res (cache_afk st) evs /\
    reactions evs = [] /\ replies evs = [] /\
    sends evs `prefix_of` afk_replies (cache_afk st) (mentions message) /\
    (res = Ok tt -> sends evs = afk_replies (cache_afk st) (mentions message)).
Proof.
  unfold afk_notify. generalize (mentions message) as ms.
  intros ms. revert st. induction ms as [|mention ms IH]; intros st.
  - exists (Ok tt), []. split; [apply runs_ret|]. close_run.
  - unfold runs. cbn [for_each]. unfold bind at 1.
    unfold notify_mention at 1, bind at 1, get_afk. cbn [cache_afk].
    rewrite afk_replies_cons.
    destruct (cache_afk st !! uid mention) as [msg|] eqn:Hm; [|apply IH].
    destruct (truthy msg); [|apply IH].
    unfold call. cbn [cache_afk trace app].
    set (a := ChannelSend _).
    destruct (w (length (trace st)) a) as [e|].
    + exists (Raised e), [(a, Some e)]. split_and!; try done.
      apply prefix_cons, prefix_nil.
    + destruct (IH {| cache_afk := cache_afk st; trace := trace st ++ [(a, None)] |})
        as (res & evs & Hrun & Hre & Hrp & Hpre & Hok).
      exists res, ((a, None) :: evs). unfold runs in Hrun. cbn in Hrun.
      rewrite Hrun, <- app_assoc. cbn.
      split_and!; try done.
      * by apply prefix_cons.
      * intros E. f_equal. by apply Hok.
Qed.

(** Lines 240-255. *)
Lemma expand_references_runs message st :
  exists res evs,
    runs (expand_references w unicode_Nd set_iter message) st res
         (cache_afk st) evs /\
    reactions evs = [] /\ sends evs = [] /\
    replies evs = link_reply (reply_links unicode_Nd set_iter (content message)).
Proof.
  unfold expand_references.
  destruct (reply_links unicode_Nd set_iter (content message)) as [|l ls] eqn:E.
  - exists (Ok tt), []. split; [apply runs_ret|]. done.
  - eexists _, _. split; [apply runs_call|]. done.
Qed.

(** [on_message] for a message of a human author. *)
Lemma on_message_runs message st :
  bot (author message) = false ->
  exists res evs,
    runs (on_message w unicode_Nd set_iter message) st res
         (delete (uid (author message)) (cache_afk st)) evs /\
    reactions evs =
      (if is_afk (cache_afk st) (uid (author message)) then [wave] else []) /\
    sends evs `prefix_of`
      afk_replies (delete (uid (author message)) (cache_afk st))
                  (mentions message) /\
    replies evs `prefix_of`
      link_reply (reply_links unicode_Nd set_iter (content message)) /\
    (res = Ok tt ->
     sends evs =
       afk_replies (delete (uid (author message)) (cache_afk st))
                   (mentions message) /\
     replies evs =
       link_reply (reply_links unicode_Nd set_iter (content message))).
Proof.
  intros Hbot. unfold on_message. rewrite Hbot.
  destruct (afk_clear_runs message st) as (r1 & e1 & H1 & Hre1 & Hs1 & Hrp1 & _).
  pose proof (runs_bind _
    (afk_notify w message ;;; expand_references w unicode_Nd set_iter message)
    _ _ _ _ H1) as HB.
  destruct r1 as [[]|e].
  2:{ exists (Raised e), e1. split; [exact HB|].
      rewrite Hs1, Hrp1. split_and!; try done; apply prefix_nil. }
  set (st1 := {| cache_afk := _; trace := _ |}) in HB.
  destruct (afk_notify_runs message st1)
    as (r2 & e2 & H2 & Hre2 & Hrp2 & Hpre2 & Hok2).
  pose proof (runs_bind _ (expand_references w unicode_Nd set_iter message)
                _ _ _ _ H2) as HB2.
  destruct r2 as [[]|e].
  2:{ exists (Raised e), (e1 ++ e2). split; [by apply HB|].
      rewrite reactions_app, sends_app, replies_app, Hre1, Hre2, Hs1, Hrp1, Hrp2.
      rewrite app_nil_r. split_and!; try done. apply prefix_nil. }
  set (st2 := {| cache_afk := _; trace := _ |}) in HB2.
  destruct (expand_references_runs message st2)
    as (r3 & e3 & H3 & Hre3 & Hs3 & Hrp3).
  exists r3, (e1 ++ e2 ++ e3). split; [by apply HB, HB2|].
  rewrite !reactions_app, !sends_app, !replies_app.
  rewrite Hre1, Hre2, Hre3, Hs1, Hs3, Hrp1, Hrp2, Hrp3, Hok2 by done.
  rewrite !app_nil_r. cbn [app]. by split_and!.
Qed.

End Phases.

(** ** Supporting facts *)

Lemma emitted_runs (m : M unit) st res reg' evs :
  runs m st res reg' evs ->
  fst (m st) = res /\ cache_afk (snd (m st)) = reg' /\ emitted m st = evs.
Proof.
  unfold runs. intros E. split_and!; [by rewrite E..|].
  apply emitted_app. by rewrite E.
Qed.

Lemma is_afk_delete reg u : is_afk (delete u reg) u = false.
Proof.
  unfold is_afk. apply bool_decide_eq_false_2.
  rewrite not_elem_of_dom. apply lookup_delete_eq.
Qed.

Lemma is_afk_true reg u : is_afk reg u = true <-> is_Some (reg !! u).
Proof.
  unfold is_afk. rewrite bool_decide_eq_true. apply elem_of_dom.
Qed.

Lemma afk_replies_delete reg a ms :
  afk_replies (delete a reg) ms =
  afk_replies reg (filter (fun mention => uid mention ≠ a) ms).
Proof.
  induction ms as [|mention ms IH]; [done|].
  rewrite filter_cons. destruct (decide (uid mention ≠ a)) as [Hne|Heq].
  - rewrite !afk_replies_cons, IH. by rewrite lookup_delete_ne.
  - apply dec_stable in Heq. rewrite afk_replies_cons, IH, Heq.
    by rewrite lookup_delete_eq.
Qed.

Lemma afk_replies_mention_replies reg ms :
  (forall mention, mention ∈ ms -> reg !! uid mention ≠ Some []) ->
  afk_replies reg ms = mention_replies reg ms.
Proof.
  induction ms as [|mention ms IH]; intros Hne; [done|].
  rewrite afk_replies_cons. cbn [mention_replies flat_map].
  rewrite IH by (intros m Hm; apply Hne; by right).
  specialize (Hne mention ltac:(by left)).
  destruct (reg !! uid mention) as [[|c msg]|]; done.
Qed.

Lemma entries_lookup reg u :
  entries reg u = match reg !! u with Some r => [(u, r)] | None => [] end.
Proof.
  unfold entries.
  induction reg as [|k v reg Hk IH] using map_ind.
  - by rewrite map_to_list_empty, lookup_empty.
  - assert (Hperm : filter (fun e : Z * pystr => e.1 = u) (map_to_list (<[k:=v]> reg))
                  ≡ₚ filter (fun e : Z * pystr => e.1 = u) ((k, v) :: map_to_list reg))
      by (by rewrite map_to_list_insert).
    rewrite filter_cons, IH in Hperm. cbn [fst] in Hperm.
    destruct (decide (k = u)) as [->|Hne].
    + rewrite lookup_insert_eq, Hk in *.
      by apply Permutation_singleton_r in Hperm.
    + rewrite lookup_insert_ne by done.
      destruct (reg !! u).
      * by apply Permutation_singleton_r in Hperm.
      * by apply Permutation_nil_r in Hperm.
Qed.

Lemma kept_last_ok : set_order_ok kept_last.
Proof.
  intros l. split; [apply NoDup_remove_dups|].
  intros x. apply elem_of_remove_dups.
Qed.

Lemma kept_last_reversed_ok : set_order_ok kept_last_reversed.
Proof.
  intros l. unfold kept_last_reversed. split.
  - rewrite reverse_Permutation. apply NoDup_remove_dups.
  - intros x. rewrite elem_of_reverse. apply elem_of_remove_dups.
Qed.

Lemma set_order_perm f g l : set_order_ok f -> set_order_ok g -> f l ≡ₚ g l.
Proof.
  intros Hf Hg. destruct (Hf l) as [Hnf Hef], (Hg l) as [Hng Heg].
  apply NoDup_Permutation; [done..|]. intros x. by rewrite Hef, Heg.
Qed.

Lemma set_order_NoDup_input f l : set_order_ok f -> NoDup l -> f l ≡ₚ l.
Proof.
  intros Hf Hl. destruct (Hf l) as [Hnf Hef].
  by apply NoDup_Permutation.
Qed.

Lemma angle_inj : Inj (=) (=) angle.
Proof.
  intros x y E. unfold angle in E. apply (inj (app _)) in E.
  by apply (inj (fun l => l ++ _)) in E.
Qed.

Lemma extract_urls_github unicode_Nd text url :
  url ∈ extract_urls unicode_Nd text ->
  exists rest, url = lit "https://github.com/" ++ rest.
Proof.
  unfold extract_urls. intros Hin. apply list_elem_of_In in Hin.
  apply in_map_iff in Hin as ([[org repo] index] & <- & _).
  unfold make_link. eauto.
Qed.

Lemma links_length unicode_Nd set_iter text :
  (length (links unicode_Nd set_iter text) <= 15)%nat.
Proof. unfold links. rewrite length_take. lia. Qed.

Lemma links_NoDup unicode_Nd set_iter text :
  set_order_ok set_iter -> NoDup (links unicode_Nd set_iter text).
Proof.
  intros Hok. unfold links, url_set.
  eapply sublist_NoDup; [apply Hok|apply sublist_take].
Qed.

Lemma reply_links_length unicode_Nd set_iter text :
  length (reply_links unicode_Nd set_iter text) =
  length (links unicode_Nd set_iter text).
Proof.
  unfold reply_links. cbn zeta.
  destruct (2 <? length (links unicode_Nd set_iter text))%nat; [|done].
  by rewrite length_map.
Qed.

(** The fuel of [findall_from] never runs out: more of it changes nothing. *)
Lemma findall_from_enough unicode_Nd r n m s :
  (length s < n)%nat -> (length s < m)%nat ->
  findall_from unicode_Nd n r s = findall_from unicode_Nd m r s.
Proof.
  revert m s. induction n as [|n IH]; intros m s Hn Hm; [lia|].
  destruct m as [|m]; [lia|]. cbn [findall_from].
  destruct (match_here unicode_Nd r s) as [[caps rest]|].
  - f_equal. destruct (length rest <? length s)%nat eqn:E.
    + apply Nat.ltb_lt in E. apply IH; lia.
    + destruct s as [|c s]; [done|]. cbn in Hn, Hm. apply IH; lia.
  - destruct s as [|c s]; [done|]. cbn in Hn, Hm. apply IH; lia.
Qed.

Lemma NoDup_by_compute (l : list pystr) : bool_decide (NoDup l) = true -> NoDup l.
Proof. apply bool_decide_eq_true_1. Qed.

Lemma afk_registry w who reason change_nick st :
  cache_afk (snd (afk w who reason change_nick st)) =
  match w (length (trace st)) (Respond (lit "Set your AFK: " ++ reason)) with
  | None => <[uid who := reason]> (cache_afk st)
  | Some _ => cache_afk st
  end.
Proof.
  unfold afk, bind, call at 1, set_afk. cbn [cache_afk trace].
  destruct (w (length (trace st)) _) as [e|]; [done|].
  destruct (change_nick && negb (startswith AFK_PREFIX (display_name who)));
    [|done].
  unfold suppress_HTTPException, call. cbn [cache_afk trace].
  by destruct (w _ _) as [[]|].
Qed.

Lemma registry_inv_any reg : registry_inv reg.
Proof.
  intros u. rewrite entries_lookup. split.
  - destruct (reg !! u); cbn; lia.
  - rewrite <- not_true_iff_false, is_afk_true.
    destruct (reg !! u) as [r|] eqn:E.
    + split; [|done]. intros H. destruct H. by eexists.
    + split; [done|]. intros _ [r Hr]. done.
Qed.

Lemma on_message_registry w unicode_Nd set_iter message st :
  bot (author message) = false ->
  cache_afk (snd (on_message w unicode_Nd set_iter message st)) =
  delete (uid (author message)) (cache_afk st).
Proof.
  intros Hbot.
  destruct (on_message_runs w unicode_Nd set_iter message st Hbot)
    as (res & evs & Hrun & _).
  by apply emitted_runs in Hrun as (_ & Hreg & _).
Qed.

Lemma afk_notify_registry w message st :
  cache_afk (snd (afk_notify w message st)) = cache_afk st.
Proof.
  destruct (afk_notify_runs w message st) as (res & evs & Hrun & _).
  by apply emitted_runs in Hrun as (_ & Hreg & _).
Qed.

(** ** The matcher on one-character loops *)

Lemma rmatch_plus_single unicode_Nd r p :
  single_char unicode_Nd r p ->
  forall A s caps (k : pystr -> captures -> option A),
    rmatch unicode_Nd (Plus r) s caps k = greedy_plus p s (fun s' => k s' caps).
Proof.
  intros Hr A s caps k. cbn [rmatch].
  generalize (Nat.le_refl (length s)). generalize (length s) at 2 3 as n.
  intros n. revert s. induction n as [|n IH]; intros s Hlen.
  - rewrite Hr. destruct s as [|c s]; [done|]. cbn in Hlen. lia.
  - rewrite Hr. destruct s as [|c s]; [done|]. cbn [greedy_plus].
    destruct (p c); [|done].
    assert ((length s <? length (c :: s))%nat = true) as ->
      by (apply Nat.ltb_lt; cbn; lia).
    rewrite IH by (cbn in Hlen; lia). done.
Qed.

Lemma name_char_single unicode_Nd :
  single_char unicode_Nd name_char (is_name_char unicode_Nd).
Proof.
  intros A s caps k. unfold name_char, is_name_char. cbn [rmatch].
  destruct s as [|c s]; [done|].
  destruct (in_ranges _ c), (is_digit unicode_Nd c), (decide (c = ch "-"));
    cbn [orb]; try rewrite bool_decide_eq_true_2 by done;
    try rewrite bool_decide_eq_false_2 by done;
    by destruct (k s caps).
Qed.

Lemma index_digit_single unicode_Nd :
  single_char unicode_Nd (In [(ch "0", ch "9")]) ascii_digit.
Proof.
  intros A s caps k. cbn [rmatch]. destruct s as [|c s]; [done|].
  unfold in_ranges, ascii_digit. cbn [existsb fst snd]. by rewrite orb_false_r.
Qed.

(** The three loops of [PULL_HASH_REGEX] are greedy runs of name characters
    and of ASCII digits. *)
Lemma name_run_greedy unicode_Nd A s caps (k : pystr -> captures -> option A) :
  rmatch unicode_Nd (Plus name_char) s caps k =
  greedy_plus (is_name_char unicode_Nd) s (fun s' => k s' caps).
Proof. apply rmatch_plus_single, name_char_single. Qed.

Lemma index_run_greedy unicode_Nd A s caps (k : pystr -> captures -> option A) :
  rmatch unicode_Nd (Plus (In [(ch "0", ch "9")])) s caps k =
  greedy_plus ascii_digit s (fun s' => k s' caps).
Proof. apply rmatch_plus_single, index_digit_single. Qed.

(** ** The message listener ignores bots *)

(** C7. A message whose author is a bot makes [on_message] return at once:
    no reaction, no reply, no nickname edit (the trace is as it was) and the
    AFK registry is unchanged, whatever the platform would have answered. *)
Theorem on_message_ignores_bots w unicode_Nd set_iter message st :
  bot (author message) = true ->
  on_message w unicode_Nd set_iter message st = (Ok tt, st).
Proof. intros Hbot. unfold on_message. by rewrite Hbot. Qed.

Lemma on_message_ignores_bots_witness :
  on_message reactions_denied no_extra_digits kept_last bot_chatter alice_away
  = (Ok tt, alice_away).
Proof. apply on_message_ignores_bots. reflexivity. Defined.

(** ** AFK clear *)

(** C3. When a user with an entry in the AFK registry posts, the entry is
    removed and exactly one reaction, the wave, is requested on the message;
    when the same user posts again with no entry made in between, no
    reaction is requested and the registry stays as it is.  This holds
    whatever the platform answers to the calls. *)
Theorem afk_author_waved_once w unicode_Nd set_iter first second st :
  bot (author first) = false ->
  bot (author second) = false ->
  uid (author second) = uid (author first) ->
  is_Some (cache_afk st !! uid (author first)) ->
  let st1 := snd (on_message w unicode_Nd set_iter first st) in
  let st2 := snd (on_message w unicode_Nd set_iter second st1) in
  cache_afk st1 = delete (uid (author first)) (cache_afk st) /\
  cache_afk st1 !! uid (author first) = None /\
  reactions (emitted (on_message w unicode_Nd set_iter first) st) = [wave] /\
  reactions (emitted (on_message w unicode_Nd set_iter second) st1) = [] /\
  cache_afk st2 = cache_afk st1.
Proof.
  intros Hb1 Hb2 Hid Hafk st1 st2.
  destruct (on_message_runs w unicode_Nd set_iter first st Hb1)
    as (r1 & e1 & Hrun1 & Hre1 & _).
  apply emitted_runs in Hrun1 as (_ & Hreg1 & Hem1).
  destruct (on_message_runs w unicode_Nd set_iter second st1 Hb2)
    as (r2 & e2 & Hrun2 & Hre2 & _).
  apply emitted_runs in Hrun2 as (_ & Hreg2 & Hem2).
  fold st1 in Hreg1. fold st2 in Hreg2.
  apply is_afk_true in Hafk. rewrite Hafk in Hre1.
  rewrite Hid, Hreg1, is_afk_delete in Hre2.
  split_and!.
  - done.
  - rewrite Hreg1. apply lookup_delete_eq.
  - by rewrite Hem1.
  - by rewrite Hem2.
  - rewrite Hreg2, Hid, Hreg1. apply delete_id, lookup_delete_eq.
Qed.

Lemma afk_author_waved_once_witness :
  is_Some (cache_afk both_away !! uid (author alice_returns)) /\
  reactions (emitted (on_message calm no_extra_digits kept_last alice_returns)
               both_away) = [wave] /\
  reactions (emitted (on_message calm no_extra_digits kept_last
                        alice_pings_herself)
               (snd (on_message calm no_extra_digits kept_last alice_returns
                       both_away))) = [].
Proof.
  assert (Hafk : is_Some (cache_afk both_away !! uid (author alice_returns)))
    by (by eexists).
  split; [exact Hafk|].
  destruct (afk_author_waved_once calm no_extra_digits kept_last
              alice_returns alice_pings_herself both_away
              eq_refl eq_refl eq_refl Hafk) as (_ & _ & H1 & H2 & _).
  by split.
Defined.

(** C10. The clear phase runs before the notify phase: an author who is AFK
    gets the wave and the mention loop then reads a registry without the
    author's entry, so the replies are those of the same message with the
    self-mentions taken out; a message that mentions nobody else gets no
    AFK reply at all. *)
Theorem afk_author_self_mention w unicode_Nd set_iter message st :
  bot (author message) = false ->
  is_Some (cache_afk st !! uid (author message)) ->
  let run := on_message w unicode_Nd set_iter message in
  let others :=
    filter (fun mention => uid mention ≠ uid (author message))
           (mentions message) in
  reactions (emitted run st) = [wave] /\
  sends (emitted run st) `prefix_of` afk_replies (cache_afk st) others /\
  (fst (run st) = Ok tt ->
   sends (emitted run st) = afk_replies (cache_afk st) others) /\
  ((forall mention, mention ∈ mentions message ->
                    uid mention = uid (author message)) ->
   sends (emitted run st) = []).
Proof.
  intros Hbot Hafk run others.
  destruct (on_message_runs w unicode_Nd set_iter message st Hbot)
    as (res & evs & Hrun & Hre & Hpre & _ & Hok).
  apply emitted_runs in Hrun as (Hres & _ & Hem).
  fold run in Hres, Hem. rewrite Hem.
  apply is_afk_true in Hafk. rewrite Hafk in Hre.
  rewrite afk_replies_delete in Hpre, Hok. fold others in Hpre, Hok.
  split_and!; [done | done | |].
  - intros E. apply Hok. congruence.
  - intros Hall.
    assert (others = []) as Hnil.
    { unfold others. clear -Hall.
      induction (mentions message) as [|mention ms IH]; [done|].
      rewrite filter_cons, decide_False.
      - apply IH. intros m Hm. apply Hall. by right.
      - intros Hne. apply Hne, Hall. by left. }
    rewrite Hnil in Hpre. by apply prefix_nil_inv.
Qed.

Lemma afk_author_self_mention_witness :
  is_Some (cache_afk alice_away !! uid (author alice_pings_herself)) /\
  reactions (emitted (on_message calm no_extra_digits kept_last
                        alice_pings_herself) alice_away) = [wave] /\
  sends (emitted (on_message calm no_extra_digits kept_last
                    alice_pings_herself) alice_away) = [].
Proof.
  assert (Hafk : is_Some (cache_afk alice_away !! uid (author alice_pings_herself)))
    by (by eexists).
  split; [exact Hafk|].
  destruct (afk_author_self_mention calm no_extra_digits kept_last
              alice_pings_herself alice_away eq_refl Hafk) as (H1 & _ & _ & H2).
  split; [exact H1|]. apply H2.
  intros mention Hin. apply list_elem_of_singleton in Hin. by subst.
Defined.

(** ** AFK notify *)

(** C2, as the code has it.  When the handler returns normally and no
    mentioned user has an empty reason on record, each mention, in the order
    given, of a user with an entry in the registry as the clear phase left
    it (the registry at call time without the author's own entry) is
    answered with one ["{display_name} is AFK: {reason}"], and nothing else
    is sent to the channel. *)
Theorem afk_mentions_answered w unicode_Nd set_iter message st :
  bot (author message) = false ->
  (forall mention, mention ∈ mentions message ->
                   cache_afk st !! uid mention ≠ Some []) ->
  fst (on_message w unicode_Nd set_iter message st) = Ok tt ->
  sends (emitted (on_message w unicode_Nd set_iter message) st) =
  mention_replies (delete (uid (author message)) (cache_afk st))
                  (mentions message).
Proof.
  intros Hbot Hne Hfst.
  destruct (on_message_runs w unicode_Nd set_iter message st Hbot)
    as (res & evs & Hrun & _ & _ & _ & Hok).
  apply emitted_runs in Hrun as (Hres & _ & Hem).
  rewrite Hem. destruct Hok as [-> _]; [congruence|].
  apply afk_replies_mention_replies. intros mention Hin.
  destruct (decide (uid (author message) = uid mention)) as [->|Hd].
  - by rewrite lookup_delete_eq.
  - rewrite lookup_delete_ne by done. by apply Hne.
Qed.

Lemma afk_mentions_answered_witness :
  fst (on_message calm no_extra_digits kept_last bob_pings_alice alice_away)
  = Ok tt /\
  sends (emitted (on_message calm no_extra_digits kept_last bob_pings_alice)
           alice_away) = [lit "[AFK] Alice is AFK: lunch"].
Proof.
  assert (Hfst : fst (on_message calm no_extra_digits kept_last
                        bob_pings_alice alice_away) = Ok tt)
    by (vm_compute; reflexivity).
  split; [exact Hfst|].
  rewrite (afk_mentions_answered calm no_extra_digits kept_last
             bob_pings_alice alice_away eq_refl); [reflexivity| |exact Hfst].
  intros mention Hin. apply list_elem_of_singleton in Hin. by subst.
Defined.

(** C2 as written fails: Alice is AFK at call time and mentions herself, the
    claim asks for one reply, and the handler sends none, having dropped her
    entry before the mention loop ran. *)
Lemma self_mention_is_not_answered :
  mention_replies (cache_afk alice_away) (mentions alice_pings_herself)
  = [lit "[AFK] Alice is AFK: lunch"] /\
  sends (emitted (on_message calm no_extra_digits kept_last
                    alice_pings_herself) alice_away) = [].
Proof. split; vm_compute; reflexivity. Qed.

(** ** Errors of cosmetic actions *)

(** C1, as the code has it.  For an author who is AFK: an [HTTPException]
    raised by the nickname edit of the clear phase is swallowed, the phase
    returns normally with the entry removed and both calls on the trace, and
    [on_message] goes on with the notify and link phases from there; an
    error raised by the wave is not caught, it leaves [on_message] with the
    entry removed and nothing else done. *)
Theorem nick_edit_failure_is_suppressed w unicode_Nd set_iter message st :
  bot (author message) = false ->
  is_Some (cache_afk st !! uid (author message)) ->
  (forall n,
     nick (author message) = Some n ->
     startswith AFK_PREFIX n = true ->
     w (length (trace st)) (AddReaction wave) = None ->
     w (S (length (trace st))) (EditNick (uid (author message)) (drop 6 n))
       = Some HTTPException ->
     let cleared :=
       {| cache_afk := delete (uid (author message)) (cache_afk st);
          trace := trace st ++
                   [(AddReaction wave, None);
                    (EditNick (uid (author message)) (drop 6 n),
                     Some HTTPException)] |} in
     afk_clear w message st = (Ok tt, cleared) /\
     on_message w unicode_Nd set_iter message st =
     (afk_notify w message ;;; expand_references w unicode_Nd set_iter message)
       cleared) /\
  (forall e,
     w (length (trace st)) (AddReaction wave) = Some e ->
     on_message w unicode_Nd set_iter message st =
     (Raised e,
      {| cache_afk := delete (uid (author message)) (cache_afk st);
         trace := trace st ++ [(AddReaction wave, Some e)] |})).
Proof.
  intros Hbot [r Hr].
  assert (Hin : uid (author message) ∈ dom (cache_afk st))
    by (apply elem_of_dom; eauto).
  split.
  - intros n Hnick Hpre Hw1 Hw2 cleared.
    assert (Hclear : afk_clear w message st = (Ok tt, cleared)).
    { unfold afk_clear, bind, get_afk, del_afk. cbn [cache_afk].
      rewrite decide_True by done.
      rewrite Hr. unfold call at 1. cbn [cache_afk trace]. rewrite Hw1, Hnick.
      assert (truthy n = true) as ->.
      { destruct n; [|done]. by vm_compute in Hpre. }
      rewrite Hpre. cbn [andb].
      unfold suppress_HTTPException, call. cbn [cache_afk trace].
      rewrite length_app, Nat.add_1_r, Hw2. unfold cleared.
      by rewrite <- app_assoc. }
    split; [exact Hclear|].
    unfold on_message. rewrite Hbot. unfold bind at 1. by rewrite Hclear.
  - intros e Hw. unfold on_message. rewrite Hbot.
    unfold bind at 1, afk_clear, bind, get_afk, del_afk. cbn [cache_afk].
    rewrite decide_True by done.
    rewrite Hr. unfold call at 1. cbn [cache_afk trace]. by rewrite Hw.
Qed.

Lemma nick_edit_failure_is_suppressed_witness :
  renames_denied (S (length (trace both_away)))
    (EditNick (uid (author alice_returns)) (drop 6 (lit "[AFK] Alice")))
  = Some HTTPException /\
  on_message renames_denied no_extra_digits kept_last alice_returns both_away =
  (afk_notify renames_denied alice_returns ;;;
   expand_references renames_denied no_extra_digits kept_last alice_returns)
    {| cache_afk := delete 1001%Z (cache_afk both_away);
       trace := [(AddReaction wave, None);
                 (EditNick 1001%Z (lit "Alice"), Some HTTPException)] |}.
Proof.
  split; [reflexivity|].
  assert (Hafk : is_Some (cache_afk both_away !! uid (author alice_returns)))
    by (by eexists).
  destruct (nick_edit_failure_is_suppressed renames_denied no_extra_digits
              kept_last alice_returns both_away eq_refl Hafk) as [Hedit _].
  apply (Hedit (lit "[AFK] Alice") eq_refl eq_refl eq_refl eq_refl).
Defined.

(** C1 as written fails: the wave is a cosmetic action too, and when the
    platform refuses it the error leaves [on_message]; Bob, who is mentioned
    and away, is not announced and the reference in the content is not
    expanded. *)
Lemma reaction_failure_escapes :
  on_message reactions_denied no_extra_digits kept_last alice_returns both_away
  = (Raised HTTPException,
     {| cache_afk := {[ 1002%Z := lit "asleep" ]};
        trace := [(AddReaction wave, Some HTTPException)] |}) /\
  afk_replies {[ 1002%Z := lit "asleep" ]} (mentions alice_returns)
  = [lit "Bob is AFK: asleep"] /\
  reply_links no_extra_digits kept_last (content alice_returns)
  = [lit "https://github.com/Pycord-Development/pycord/pull/7"].
Proof. split_and!; vm_compute; reflexivity. Qed.

(** Only [discord.HTTPException] is suppressed: another error of the edit
    leaves the handler as well. *)
Lemma nick_edit_other_error_escapes :
  fst (on_message renames_crash no_extra_digits kept_last alice_returns both_away)
  = Raised OtherError.
Proof. vm_compute. reflexivity. Qed.

(** ** Reference links *)

(** C4. On ["Fixes foo/bar##42 and ##43"] the pattern finds two references;
    with the default organisation and repository filled in they become the
    two URLs below, and whatever order the set is iterated in, the links are
    these two, each once. *)
Theorem extraction_example unicode_Nd set_iter :
  set_order_ok set_iter ->
  extract_urls unicode_Nd fixes_example =
    [lit "https://github.com/foo/bar/pull/42";
     lit "https://github.com/Pycord-Development/pycord/pull/43"] /\
  links unicode_Nd set_iter fixes_example ≡ₚ
    [lit "https://github.com/foo/bar/pull/42";
     lit "https://github.com/Pycord-Development/pycord/pull/43"] /\
  reply_links unicode_Nd set_iter fixes_example =
    links unicode_Nd set_iter fixes_example.
Proof.
  intros Hok.
  assert (Hurls : extract_urls unicode_Nd fixes_example =
    [lit "https://github.com/foo/bar/pull/42";
     lit "https://github.com/Pycord-Development/pycord/pull/43"])
    by (vm_compute; reflexivity).
  assert (Hperm : url_set unicode_Nd set_iter fixes_example ≡ₚ
                  extract_urls unicode_Nd fixes_example).
  { apply set_order_NoDup_input; [done|]. rewrite Hurls.
    apply NoDup_by_compute. vm_compute. reflexivity. }
  assert (Hlen : length (url_set unicode_Nd set_iter fixes_example) = 2%nat)
    by (by rewrite Hperm, Hurls).
  assert (Hlinks : links unicode_Nd set_iter fixes_example =
                   url_set unicode_Nd set_iter fixes_example)
    by (unfold links; apply take_ge; lia).
  split_and!; [done | by rewrite Hlinks, Hperm, Hurls |].
  unfold reply_links. cbn zeta. by rewrite Hlinks, Hlen.
Qed.

Lemma extraction_example_witness :
  links no_extra_digits kept_last_reversed fixes_example ≡ₚ
    [lit "https://github.com/foo/bar/pull/42";
     lit "https://github.com/Pycord-Development/pycord/pull/43"].
Proof.
  apply (extraction_example no_extra_digits kept_last_reversed
           kept_last_reversed_ok).
Defined.

(** C5. The links of a reply are pairwise distinct and at most 15, and any
    reply [on_message] makes is these links joined by newlines; twenty
    distinct references leave exactly 15 links. *)
Theorem reply_links_bounded w unicode_Nd set_iter text :
  set_order_ok set_iter ->
  NoDup (reply_links unicode_Nd set_iter text) /\
  (length (reply_links unicode_Nd set_iter text) <= 15)%nat /\
  (forall message st r,
     content message = text ->
     r ∈ replies (emitted (on_message w unicode_Nd set_iter message) st) ->
     r = join newline (reply_links unicode_Nd set_iter text)) /\
  (length (extract_urls unicode_Nd twenty_refs) = 20%nat /\
   NoDup (extract_urls unicode_Nd twenty_refs) /\
   length (reply_links unicode_Nd set_iter twenty_refs) = 15%nat).
Proof.
  intros Hok. split_and!.
  - unfold reply_links. cbn zeta.
    pose proof (links_NoDup unicode_Nd set_iter text Hok) as Hnd.
    destruct (2 <? length (links unicode_Nd set_iter text))%nat; [|done].
    change (NoDup (angle <$> links unicode_Nd set_iter text)).
    by apply (@NoDup_fmap_2 _ _ angle angle_inj).
  - rewrite reply_links_length. apply links_length.
  - intros message st r <- Hin.
    destruct (bot (author message)) eqn:Hbot.
    + unfold emitted, on_message in Hin. rewrite Hbot in Hin.
      cbn [snd ret] in Hin. rewrite drop_all in Hin. by apply elem_of_nil in Hin.
    + destruct (on_message_runs w unicode_Nd set_iter message st Hbot)
        as (res & evs & Hrun & _ & _ & Hpre & _).
      apply emitted_runs in Hrun as (_ & _ & Hem). rewrite Hem in Hin.
      destruct Hpre as [k Hk]. unfold link_reply in Hk.
      destruct (reply_links unicode_Nd set_iter (content message)) as [|l ls].
      * symmetry in Hk. apply app_eq_nil in Hk as [Hk _]. rewrite Hk in Hin.
        by apply elem_of_nil in Hin.
      * destruct (replies evs) as [|r' rs]; [by apply elem_of_nil in Hin|].
        injection Hk as Hr Hk'. symmetry in Hk'.
        apply app_eq_nil in Hk' as [Hrs _]. subst rs.
        apply list_elem_of_singleton in Hin. subst r r'. reflexivity.
  - vm_compute. reflexivity.
  - apply NoDup_by_compute. vm_compute. reflexivity.
  - rewrite reply_links_length. unfold links. rewrite length_take.
    assert (Hperm : url_set unicode_Nd set_iter twenty_refs ≡ₚ
                    extract_urls unicode_Nd twenty_refs).
    { apply set_order_NoDup_input; [done|].
      apply NoDup_by_compute. vm_compute. reflexivity. }
    rewrite Hperm. vm_compute. reflexivity.
Qed.

Lemma reply_links_bounded_witness :
  NoDup (reply_links no_extra_digits kept_last twenty_refs) /\
  (length (reply_links no_extra_digits kept_last twenty_refs) <= 15)%nat.
Proof.
  destruct (reply_links_bounded calm no_extra_digits kept_last twenty_refs
              kept_last_ok) as (H1 & H2 & _).
  by split.
Defined.

(** C8. The URLs found in a text depend on the text alone.  Two iterations
    of the set, in whatever orders, give the same URLs, each once; with at
    most 15 of them the truncated lists agree as well; and under one
    iteration order two messages of the same content, in whatever state and
    from whatever author, get the same reply. *)
Theorem extraction_deterministic unicode_Nd order1 order2 text :
  set_order_ok order1 ->
  set_order_ok order2 ->
  url_set unicode_Nd order1 text ≡ₚ url_set unicode_Nd order2 text /\
  ((length (url_set unicode_Nd order1 text) <= 15)%nat ->
   links unicode_Nd order1 text ≡ₚ links unicode_Nd order2 text) /\
  (forall w1 w2 message1 message2 st1 st2,
     content message1 = text -> content message2 = text ->
     bot (author message1) = false -> bot (author message2) = false ->
     fst (on_message w1 unicode_Nd order1 message1 st1) = Ok tt ->
     fst (on_message w2 unicode_Nd order1 message2 st2) = Ok tt ->
     replies (emitted (on_message w1 unicode_Nd order1 message1) st1) =
     replies (emitted (on_message w2 unicode_Nd order1 message2) st2)).
Proof.
  intros Hok1 Hok2.
  assert (Hperm : url_set unicode_Nd order1 text ≡ₚ url_set unicode_Nd order2 text)
    by (by apply set_order_perm).
  split_and!; [done | |].
  - intros Hlen. unfold links. rewrite !take_ge; [done|by rewrite <- Hperm|done].
  - intros w1 w2 m1 m2 st1 st2 Hc1 Hc2 Hb1 Hb2 Hf1 Hf2.
    destruct (on_message_runs w1 unicode_Nd order1 m1 st1 Hb1)
      as (r1 & e1 & Hrun1 & _ & _ & _ & Hres1).
    destruct (on_message_runs w2 unicode_Nd order1 m2 st2 Hb2)
      as (r2 & e2 & Hrun2 & _ & _ & _ & Hres2).
    apply emitted_runs in Hrun1 as (Hf1' & _ & ->).
    apply emitted_runs in Hrun2 as (Hf2' & _ & ->).
    destruct Hres1 as [_ ->]; [congruence|].
    destruct Hres2 as [_ ->]; [congruence|].
    by rewrite Hc1, Hc2.
Qed.

Lemma extraction_deterministic_witness :
  url_set no_extra_digits kept_last twenty_refs ≡ₚ
  url_set no_extra_digits kept_last_reversed twenty_refs.
Proof.
  apply (extraction_deterministic no_extra_digits kept_last kept_last_reversed
           twenty_refs kept_last_ok kept_last_reversed_ok).
Defined.

(** Beyond 15 URLs the links kept do depend on the order the set is
    iterated in. *)
Lemma links_beyond_fifteen :
  lit "https://github.com/Pycord-Development/pycord/pull/1"
    ∈ links no_extra_digits kept_last twenty_refs /\
  lit "https://github.com/Pycord-Development/pycord/pull/1"
    ∉ links no_extra_digits kept_last_reversed twenty_refs.
Proof.
  split.
  - apply (bool_decide_eq_true_1 _). vm_compute. reflexivity.
  - apply (bool_decide_eq_false_1 _). vm_compute. reflexivity.
Qed.

(** ** The AFK registry *)

(** C9. After each of the three operations on the registry, from any state,
    it holds at most one entry per user and the membership test says no
    exactly for the users without one.  An [afk] command that got its
    response out leaves exactly one entry for its user, the new reason,
    also when there was one before; a message of a human author leaves none
    for that author and the other users' entries as they were; the mention
    loop changes nothing.  A user without an entry is not AFK to the
    handler: posting brings no wave and being mentioned brings no AFK
    reply. *)
Theorem afk_registry_invariant w unicode_Nd set_iter st :
  (forall who reason change_nick,
     let reg' := cache_afk (snd (afk w who reason change_nick st)) in
     registry_inv reg' /\
     (w (length (trace st)) (Respond (lit "Set your AFK: " ++ reason)) = None ->
      entries reg' (uid who) = [(uid who, reason)])) /\
  (forall message,
     let reg' := cache_afk (snd (on_message w unicode_Nd set_iter message st)) in
     registry_inv reg' /\
     (bot (author message) = false ->
      entries reg' (uid (author message)) = [] /\
      forall u, u ≠ uid (author message) ->
                entries reg' u = entries (cache_afk st) u)) /\
  (forall message,
     cache_afk (snd (afk_notify w message st)) = cache_afk st) /\
  (forall message,
     bot (author message) = false ->
     entries (cache_afk st) (uid (author message)) = [] ->
     reactions (emitted (on_message w unicode_Nd set_iter message) st) = []) /\
  (forall mention,
     entries (cache_afk st) (uid mention) = [] ->
     afk_replies (cache_afk st) [mention] = []).
Proof.
  split_and!.
  - intros who reason change_nick reg'. split; [apply registry_inv_any|].
    intros Hw. unfold reg'.
    rewrite afk_registry, Hw, entries_lookup. by rewrite lookup_insert_eq.
  - intros message reg'. split; [apply registry_inv_any|].
    intros Hbot. unfold reg'. rewrite on_message_registry by done.
    split.
    + rewrite entries_lookup. by rewrite lookup_delete_eq.
    + intros u Hne. rewrite !entries_lookup. by rewrite lookup_delete_ne.
  - intros message. apply afk_notify_registry.
  - intros message Hbot Hnone.
    destruct (on_message_runs w unicode_Nd set_iter message st Hbot)
      as (res & evs & Hrun & Hre & _).
    apply emitted_runs in Hrun as (_ & _ & ->).
    apply (registry_inv_any (cache_afk st)) in Hnone. by rewrite Hnone in Hre.
  - intros mention Hnone. rewrite entries_lookup in Hnone.
    rewrite afk_replies_cons. by destruct (cache_afk st !! uid mention).
Qed.

(** ** The pattern, read from left to right *)

Lemma greedy_plus_sound {A} p s (k : pystr -> option A) x :
  greedy_plus p s k = Some x ->
  exists run s', s = run ++ s' /\ run ≠ [] /\ forallb p run = true /\
                 k s' = Some x.
Proof.
  induction s as [|c s IH]; cbn [greedy_plus]; [done|].
  destruct (p c) eqn:Hc; [|done].
  destruct (greedy_plus p s k) as [y|] eqn:Hg.
  - intros [= ->]. destruct IH as (run & s' & -> & _ & Hall & Hk); [done|].
    exists (c :: run), s'. cbn [forallb]. by rewrite Hc, Hall.
  - intros Hk. exists [c], s. cbn [forallb]. by rewrite Hc.
Qed.

Lemma greedy_plus_not_started {A} p s (k : pystr -> option A) :
  starts_with_char p s = false -> greedy_plus p s k = None.
Proof. destruct s as [|c s]; [done|]. cbn. by intros ->. Qed.

(** A loop followed by nothing that can fail takes the longest run. *)
Lemma greedy_plus_longest {A} p s (f : pystr -> A) x :
  greedy_plus p s (fun s' => Some (f s')) = Some x ->
  exists run s', s = run ++ s' /\ run ≠ [] /\ forallb p run = true /\
                 starts_with_char p s' = false /\ x = f s'.
Proof.
  induction s as [|c s IH]; cbn [greedy_plus]; [done|].
  destruct (p c) eqn:Hc; [|done].
  destruct (greedy_plus p s _) as [y|] eqn:Hg.
  - intros [= ->]. destruct IH as (run & s' & -> & _ & Hall & Hs & Hx); [done|].
    exists (c :: run), s'. cbn [forallb]. by rewrite Hc, Hall.
  - intros [= <-]. exists [c], s. cbn [forallb]. rewrite Hc.
    split_and!; try done.
    destruct s as [|d s]; [done|]. cbn in Hg |- *.
    destruct (p d); [|done]. by destruct (greedy_plus p s _).
Qed.

Lemma greedy_plus_complete {A} p run s' (k : pystr -> option A) x :
  run ≠ [] -> forallb p run = true -> starts_with_char p s' = false ->
  k s' = Some x ->
  greedy_plus p (run ++ s') k = Some x.
Proof.
  intros Hne Hall Hs Hk. induction run as [|c run IH]; [done|].
  cbn [forallb] in Hall. apply andb_true_iff in Hall as [Hc Hall].
  cbn [app greedy_plus]. rewrite Hc.
  destruct run as [|d run].
  - cbn [app]. by rewrite greedy_plus_not_started.
  - by rewrite IH.
Qed.

Lemma longest_run_unique p r1 s1 r2 s2 :
  r1 ++ s1 = r2 ++ s2 ->
  forallb p r1 = true -> forallb p r2 = true ->
  starts_with_char p s1 = false -> starts_with_char p s2 = false ->
  r1 = r2 /\ s1 = s2.
Proof.
  revert r2. induction r1 as [|c r1 IH]; intros [|d r2] E H1 H2 Hs1 Hs2.
  - done.
  - cbn in E, H2. subst s1. cbn in Hs1.
    apply andb_true_iff in H2 as [H2 _]. congruence.
  - cbn in E, H1. subst s2. cbn in Hs2.
    apply andb_true_iff in H1 as [H1 _]. congruence.
  - cbn in E, H1, H2. injection E as -> E.
    apply andb_true_iff in H1 as [_ H1]. apply andb_true_iff in H2 as [_ H2].
    destruct (IH r2 E H1 H2 Hs1 Hs2) as [-> ->]. done.
Qed.

Lemma take_run (run s' : pystr) :
  take (length (run ++ s') - length s') (run ++ s') = run.
Proof.
  rewrite length_app, Nat.add_sub. apply take_app_length.
Qed.

Lemma index_part_unfold unicode_Nd u c :
  rmatch unicode_Nd INDEX_PART u c (fun s' caps => Some (caps, s')) =
  match u with
  | a :: b :: v =>
      if decide (a = ch "#") then
        if decide (b = ch "#") then
          greedy_plus ascii_digit v
            (fun v' => Some (<[3%nat := take (length v - length v') v]> c, v'))
        else None
      else None
  | _ => None
  end.
Proof.
  destruct u as [|a [|b v]]; [done| |].
  - unfold INDEX_PART. cbn [rmatch]. by destruct (decide (a = ch "#")).
  - unfold INDEX_PART.
    change (rmatch unicode_Nd (Seq (Seq (Chr (ch "#")) (Chr (ch "#"))) ?r)
              (a :: b :: v) c ?k)
      with (if decide (a = ch "#") then
              if decide (b = ch "#") then rmatch unicode_Nd r v c k else None
            else None).
    destruct (decide (a = ch "#")); [|done].
    destruct (decide (b = ch "#")); [|done].
    apply (index_run_greedy unicode_Nd _ v c
             (fun v' c' => Some (<[3%nat := take (length v - length v') v]> c', v'))).
Qed.

Lemma repo_part_unfold unicode_Nd t c :
  rmatch unicode_Nd REPO_PART t c (fun s' caps => Some (caps, s')) =
  match greedy_plus (is_name_char unicode_Nd) t
          (fun t' => rmatch unicode_Nd INDEX_PART t'
                       (<[2%nat := take (length t - length t') t]> c)
                       (fun s' caps => Some (caps, s'))) with
  | Some x => Some x
  | None => rmatch unicode_Nd INDEX_PART t c (fun s' caps => Some (caps, s'))
  end.
Proof.
  unfold REPO_PART.
  change (rmatch unicode_Nd (Seq (Opt (Group 2 (Plus name_char))) ?r) t c ?k)
    with (match rmatch unicode_Nd (Plus name_char) t c
                  (fun t' c' => rmatch unicode_Nd r t'
                                  (<[2%nat := take (length t - length t') t]> c') k) with
          | Some x => Some x
          | None => rmatch unicode_Nd r t c k
          end).
  by rewrite name_run_greedy.
Qed.

Lemma match_here_unfold unicode_Nd s :
  match_here unicode_Nd PULL_HASH_REGEX s =
  match greedy_plus (is_name_char unicode_Nd) s
          (fun s' =>
             match s' with
             | a :: t =>
                 if decide (a = ch "/")
                 then rmatch unicode_Nd REPO_PART t
                        (<[1%nat := take (length s - length s') s]> ∅)
                        (fun s' caps => Some (caps, s'))
                 else None
             | [] => None
             end) with
  | Some x => Some x
  | None => rmatch unicode_Nd REPO_PART s ∅ (fun s' caps => Some (caps, s'))
  end.
Proof.
  unfold match_here, PULL_HASH_REGEX. fold INDEX_PART. fold REPO_PART.
  change (rmatch unicode_Nd
            (Seq (Opt (Seq (Group 1 (Plus name_char)) (Chr (ch "/")))) ?r) s ∅ ?k)
    with (match rmatch unicode_Nd (Plus name_char) s ∅
                  (fun s' c' =>
                     rmatch unicode_Nd (Chr (ch "/")) s'
                       (<[1%nat := take (length s - length s') s]> c')
                       (fun s'' c'' => rmatch unicode_Nd r s'' c'' k)) with
          | Some x => Some x
          | None => rmatch unicode_Nd r s ∅ k
          end).
  by rewrite name_run_greedy.
Qed.

Lemma index_part_sound unicode_Nd u c caps rest :
  rmatch unicode_Nd INDEX_PART u c (fun s' caps => Some (caps, s'))
  = Some (caps, rest) ->
  exists index,
    u = lit "##" ++ index ++ rest /\ index ≠ [] /\
    forallb ascii_digit index = true /\
    starts_with_char ascii_digit rest = false /\
    caps = <[3%nat := index]> c.
Proof.
  rewrite index_part_unfold. destruct u as [|a [|b v]]; [done..|].
  destruct (decide (a = ch "#")) as [->|]; [|done].
  destruct (decide (b = ch "#")) as [->|]; [|done].
  intros (run & s' & -> & Hne & Hall & Hs & [= -> ->])%greedy_plus_longest.
  exists run. by rewrite take_run.
Qed.

Lemma repo_part_sound unicode_Nd t c caps rest :
  rmatch unicode_Nd REPO_PART t c (fun s' caps => Some (caps, s'))
  = Some (caps, rest) ->
  exists repo index,
    t = repo ++ lit "##" ++ index ++ rest /\
    forallb (is_name_char unicode_Nd) repo = true /\
    index ≠ [] /\ forallb ascii_digit index = true /\
    starts_with_char ascii_digit rest = false /\
    caps = <[3%nat := index]>
             ((if truthy repo then <[2%nat := repo]> else id) c).
Proof.
  rewrite repo_part_unfold.
  destruct (greedy_plus _ t _) as [x|] eqn:Hg.
  - intros [= ->].
    apply greedy_plus_sound in Hg as (run & t' & -> & Hne & Hall & Hk).
    apply index_part_sound in Hk as (index & -> & Hi & Hd & Hs & ->).
    exists run, index. rewrite take_run.
    destruct run; [done|]. by split_and!.
  - intros (index & -> & Hi & Hd & Hs & ->)%index_part_sound.
    exists [], index. by split_and!.
Qed.

Lemma match_here_sound unicode_Nd s caps rest :
  match_here unicode_Nd PULL_HASH_REGEX s = Some (caps, rest) ->
  exists org repo index,
    s = shorthand org repo index ++ rest /\
    forallb (is_name_char unicode_Nd) org = true /\
    forallb (is_name_char unicode_Nd) repo = true /\
    index ≠ [] /\ forallb ascii_digit index = true /\
    starts_with_char ascii_digit rest = false /\
    caps = captures_of org repo index.
Proof.
  rewrite match_here_unfold.
  destruct (greedy_plus _ s _) as [x|] eqn:Hg.
  - intros [= ->].
    apply greedy_plus_sound in Hg as (run & s' & -> & Hne & Hall & Hk).
    destruct s' as [|a t]; [done|].
    destruct (decide (a = ch "/")) as [->|]; [|done].
    apply repo_part_sound in Hk as (repo & index & -> & Hr & Hi & Hd & Hs & ->).
    exists run, repo, index. rewrite take_run. unfold shorthand, captures_of.
    destruct run as [|c run]; [done|]. cbn [truthy].
    rewrite <- !app_assoc. by split_and!.
  - intros (repo & index & -> & Hr & Hi & Hd & Hs & ->)%repo_part_sound.
    exists [], repo, index. unfold shorthand. cbn [truthy app].
    rewrite <- !app_assoc. by split_and!.
Qed.

Lemma group_captures_of org repo index :
  group (captures_of org repo index) 1 = org /\
  group (captures_of org repo index) 2 = repo /\
  group (captures_of org repo index) 3 = index.
Proof.
  unfold group, captures_of.
  destruct org as [|a org], repo as [|b repo]; cbn [truthy id];
    by simplify_map_eq.
Qed.

(** X1. A match of [PULL_HASH_REGEX] at the start of a text is the shorthand
    of its three groups followed by the unread rest: the organisation and
    the repository are runs of letters, digits and hyphens, the index is a
    non-empty run of ASCII digits, and the index is not cut short, the rest
    does not go on with a digit. *)
Theorem pull_hash_match_shape unicode_Nd s caps rest :
  match_here unicode_Nd PULL_HASH_REGEX s = Some (caps, rest) ->
  s = shorthand (group caps 1) (group caps 2) (group caps 3) ++ rest /\
  forallb (is_name_char unicode_Nd) (group caps 1) = true /\
  forallb (is_name_char unicode_Nd) (group caps 2) = true /\
  group caps 3 ≠ [] /\
  forallb ascii_digit (group caps 3) = true /\
  starts_with_char ascii_digit rest = false.
Proof.
  intros (org & repo & index & -> & Ho & Hr & Hi & Hd & Hs & ->)%match_here_sound.
  destruct (group_captures_of org repo index) as (-> & -> & ->). done.
Qed.

Lemma pull_hash_match_shape_witness :
  match_here no_extra_digits PULL_HASH_REGEX (lit "foo/bar##42 and ##43")
  = Some (captures_of (lit "foo") (lit "bar") (lit "42"), lit " and ##43") /\
  lit "foo/bar##42 and ##43" =
  shorthand (lit "foo") (lit "bar") (lit "42") ++ lit " and ##43".
Proof.
  assert (H : match_here no_extra_digits PULL_HASH_REGEX
                (lit "foo/bar##42 and ##43")
              = Some (captures_of (lit "foo") (lit "bar") (lit "42"),
                      lit " and ##43")) by (vm_compute; reflexivity).
  split; [exact H|].
  destruct (pull_hash_match_shape _ _ _ _ H) as [Hs _].
  destruct (group_captures_of (lit "foo") (lit "bar") (lit "42"))
    as (H1 & H2 & H3).
  by rewrite H1, H2, H3 in Hs.
Defined.

Lemma index_part_complete unicode_Nd c index rest :
  index ≠ [] -> forallb ascii_digit index = true ->
  starts_with_char ascii_digit rest = false ->
  rmatch unicode_Nd INDEX_PART (lit "##" ++ index ++ rest) c
         (fun s' caps => Some (caps, s'))
  = Some (<[3%nat := index]> c, rest).
Proof.
  intros Hi Hd Hs.
  change (lit "##" ++ index ++ rest) with (ch "#" :: ch "#" :: index ++ rest).
  rewrite index_part_unfold. cbv beta iota.
  rewrite !decide_True by done.
  apply greedy_plus_complete; [done..|]. by rewrite take_run.
Qed.

Lemma hash_not_name unicode_Nd s :
  starts_with_char (is_name_char unicode_Nd) (lit "##" ++ s) = false.
Proof. reflexivity. Qed.

Lemma repo_part_complete unicode_Nd c repo index rest :
  forallb (is_name_char unicode_Nd) repo = true ->
  index ≠ [] -> forallb ascii_digit index = true ->
  starts_with_char ascii_digit rest = false ->
  rmatch unicode_Nd REPO_PART (repo ++ lit "##" ++ index ++ rest) c
         (fun s' caps => Some (caps, s'))
  = Some (<[3%nat := index]>
            ((if truthy repo then <[2%nat := repo]> else id) c), rest).
Proof.
  intros Hr Hi Hd Hs. rewrite repo_part_unfold.
  destruct repo as [|b repo].
  - cbn [app truthy id]. rewrite greedy_plus_not_started by apply hash_not_name.
    by apply index_part_complete.
  - erewrite greedy_plus_complete; [done|done|done|apply hash_not_name|].
    rewrite take_run. by apply index_part_complete.
Qed.

Lemma match_here_complete unicode_Nd org repo index rest :
  forallb (is_name_char unicode_Nd) org = true ->
  forallb (is_name_char unicode_Nd) repo = true ->
  index ≠ [] -> forallb ascii_digit index = true ->
  starts_with_char ascii_digit rest = false ->
  match_here unicode_Nd PULL_HASH_REGEX (shorthand org repo index ++ rest)
  = Some (captures_of org repo index, rest).
Proof.
  intros Ho Hr Hi Hd Hs. rewrite match_here_unfold.
  unfold shorthand, captures_of. destruct org as [|a org].
  - cbn [truthy app id]. rewrite <- !app_assoc.
    destruct (greedy_plus _ _ _) as [x|] eqn:Hg.
    + exfalso.
      apply greedy_plus_sound in Hg as (run & s' & E & Hne & Hall & Hk).
      destruct s' as [|c t]; [done|].
      destruct (decide (c = ch "/")) as [->|]; [|done].
      destruct (longest_run_unique (is_name_char unicode_Nd)
                  repo (lit "##" ++ index ++ rest) run (ch "/" :: t))
        as [_ E']; [done|done|done|apply hash_not_name|done|].
      discriminate E'.
    + by apply repo_part_complete.
  - cbn [truthy]. rewrite <- !app_assoc.
    erewrite greedy_plus_complete; [done|done|done|reflexivity|].
    rewrite take_run. change (lit "/" ++ ?x) with (ch "/" :: x).
    cbv beta iota. rewrite decide_True by done. by apply repo_part_complete.
Qed.

Lemma findall_step unicode_Nd r s caps rest :
  match_here unicode_Nd r s = Some (caps, rest) ->
  (length rest < length s)%nat ->
  findall unicode_Nd r s =
  (group caps 1, group caps 2, group caps 3) :: findall unicode_Nd r rest.
Proof.
  intros Hm Hlen. unfold findall at 1. cbn [findall_from]. rewrite Hm.
  rewrite (proj2 (Nat.ltb_lt _ _) Hlen). f_equal.
  apply findall_from_enough; lia.
Qed.

Lemma findall_skip unicode_Nd r c s :
  match_here unicode_Nd r (c :: s) = None ->
  findall unicode_Nd r (c :: s) = findall unicode_Nd r s.
Proof.
  intros Hm. unfold findall at 1. cbn [findall_from length]. by rewrite Hm.
Qed.

(** X2. Reading is the inverse of writing.  A text that begins with a
    well-formed shorthand (the organisation and the repository runs of name
    characters, either of them possibly left out, the index a non-empty run
    of ASCII digits that the text does not continue) has that shorthand as
    its first match, groups as written, and the search goes on in what
    comes after it. *)
Theorem shorthand_read_back unicode_Nd org repo index rest :
  forallb (is_name_char unicode_Nd) org = true ->
  forallb (is_name_char unicode_Nd) repo = true ->
  index ≠ [] ->
  forallb ascii_digit index = true ->
  starts_with_char ascii_digit rest = false ->
  findall unicode_Nd PULL_HASH_REGEX (shorthand org repo index ++ rest) =
  (org, repo, index) :: findall unicode_Nd PULL_HASH_REGEX rest.
Proof.
  intros Ho Hr Hi Hd Hs.
  rewrite (findall_step _ _ _ _ rest
             (match_here_complete unicode_Nd org repo index rest Ho Hr Hi Hd Hs)).
  - by destruct (group_captures_of org repo index) as (-> & -> & ->).
  - rewrite length_app. unfold shorthand. rewrite !length_app.
    change (length (lit "##")) with 2%nat. lia.
Qed.

Lemma shorthand_read_back_witness :
  findall no_extra_digits PULL_HASH_REGEX
    (shorthand (lit "Pycord-Development") [] (lit "007") ++ lit ", thanks")
  = (lit "Pycord-Development", [], lit "007")
      :: findall no_extra_digits PULL_HASH_REGEX (lit ", thanks").
Proof.
  apply shorthand_read_back; [reflexivity | reflexivity | done
                              | reflexivity | reflexivity].
Defined.

Lemma match_here_rest_suffix unicode_Nd s caps rest :
  match_here unicode_Nd PULL_HASH_REGEX s = Some (caps, rest) ->
  rest `suffix_of` s.
Proof.
  intros (org & repo & index & -> & _)%match_here_sound. by eexists.
Qed.

Lemma findall_from_matches unicode_Nd fuel s t :
  t ∈ findall_from unicode_Nd fuel PULL_HASH_REGEX s ->
  exists s' caps rest,
    s' `suffix_of` s /\
    match_here unicode_Nd PULL_HASH_REGEX s' = Some (caps, rest) /\
    t = (group caps 1, group caps 2, group caps 3).
Proof.
  revert s. induction fuel as [|fuel IH]; intros s; cbn [findall_from].
  { by intros ?%elem_of_nil. }
  assert (Htail : forall c s0, s = c :: s0 ->
            t ∈ findall_from unicode_Nd fuel PULL_HASH_REGEX s0 ->
            exists s' caps rest,
              s' `suffix_of` s /\
              match_here unicode_Nd PULL_HASH_REGEX s' = Some (caps, rest) /\
              t = (group caps 1, group caps 2, group caps 3)).
  { intros c s0 -> Hin. destruct (IH _ Hin) as (s' & caps & rest & Hsuf & Hm & Ht).
    exists s', caps, rest. split; [by apply suffix_cons_r|done]. }
  destruct (match_here unicode_Nd PULL_HASH_REGEX s) as [[caps rest]|] eqn:Hm.
  - intros [->|Hin]%elem_of_cons.
    + by exists s, caps, rest.
    + destruct (length rest <? length s)%nat.
      * destruct (IH _ Hin) as (s' & caps' & rest' & Hsuf & Hm' & Ht).
        exists s', caps', rest'. split; [|done].
        etrans; [exact Hsuf|]. by eapply match_here_rest_suffix.
      * destruct s as [|c s0]; [by apply elem_of_nil in Hin|]. by eapply Htail.
  - destruct s as [|c s0]; [by intros ?%elem_of_nil|]. by eapply Htail.
Qed.

Lemma default_names_ok unicode_Nd :
  forallb (is_name_char unicode_Nd) (lit "Pycord-Development") = true /\
  forallb (is_name_char unicode_Nd) (lit "pycord") = true.
Proof. split; reflexivity. Qed.

(** X3. Every URL taken from a message is a well-formed pull-request URL:
    [https://github.com/ORG/REPO/pull/N] with [ORG] and [REPO] non-empty
    runs of letters, digits and hyphens and [N] a non-empty run of ASCII
    digits, whatever the message held. *)
Theorem extracted_urls_well_formed unicode_Nd text url :
  url ∈ extract_urls unicode_Nd text ->
  exists org repo index,
    url = pull_url org repo index /\
    org ≠ [] /\ forallb (is_name_char unicode_Nd) org = true /\
    repo ≠ [] /\ forallb (is_name_char unicode_Nd) repo = true /\
    index ≠ [] /\ forallb ascii_digit index = true.
Proof.
  unfold extract_urls. intros Hin. apply list_elem_of_In in Hin.
  apply in_map_iff in Hin as ([[org repo] index] & <- & Hin).
  apply list_elem_of_In, findall_from_matches in Hin
    as (s' & caps & rest & _ & Hm & [= -> -> ->]).
  apply match_here_sound in Hm as (o & r & i & _ & Ho & Hr & Hi & Hd & _ & ->).
  destruct (group_captures_of o r i) as (-> & -> & ->).
  destruct (default_names_ok unicode_Nd) as [Hdo Hdr].
  exists (if truthy o then o else lit "Pycord-Development"),
         (if truthy r then r else lit "pycord"), i.
  split; [reflexivity|].
  destruct o, r; by split_and!.
Qed.

Lemma extracted_urls_well_formed_witness :
  lit "https://github.com/foo/bar/pull/42"
    ∈ extract_urls no_extra_digits fixes_example /\
  exists org repo index,
    lit "https://github.com/foo/bar/pull/42" = pull_url org repo index /\
    org ≠ [] /\ forallb (is_name_char no_extra_digits) org = true /\
    repo ≠ [] /\ forallb (is_name_char no_extra_digits) repo = true /\
    index ≠ [] /\ forallb ascii_digit index = true.
Proof.
  assert (Hin : lit "https://github.com/foo/bar/pull/42"
                  ∈ extract_urls no_extra_digits fixes_example)
    by (apply (bool_decide_eq_true_1 _); vm_compute; reflexivity).
  split; [exact Hin|].
  exact (extracted_urls_well_formed _ _ _ Hin).
Defined.

Lemma has_double_hash_cons a s :
  has_double_hash s = true -> has_double_hash (a :: s) = true.
Proof.
  destruct s as [|b s]; [done|]. intros H.
  change (has_double_hash (a :: b :: s))
    with ((bool_decide (a = ch "#") && bool_decide (b = ch "#"))
          || has_double_hash (b :: s)).
  rewrite H. apply orb_true_r.
Qed.

Lemma has_double_hash_app pre post :
  has_double_hash (pre ++ lit "##" ++ post) = true.
Proof.
  induction pre as [|a pre IH]; [done|]. by apply has_double_hash_cons.
Qed.

Lemma has_double_hash_suffix s' s :
  s' `suffix_of` s -> has_double_hash s' = true -> has_double_hash s = true.
Proof.
  intros [k ->] H. induction k as [|a k IH]; [done|].
  by apply has_double_hash_cons.
Qed.

Lemma findall_needs_double_hash unicode_Nd text :
  has_double_hash text = false ->
  findall unicode_Nd PULL_HASH_REGEX text = [].
Proof.
  intros Hno. unfold findall.
  destruct (findall_from _ _ _ text) as [|t l] eqn:E; [done|]. exfalso.
  destruct (findall_from_matches unicode_Nd (S (length text)) text t)
    as (s' & caps & rest & Hsuf & Hm & _); [rewrite E; by left|].
  apply match_here_sound in Hm as (org & repo & index & -> & _).
  assert (has_double_hash text = true); [|congruence].
  eapply has_double_hash_suffix; [exact Hsuf|].
  unfold shorthand. rewrite <- !app_assoc, app_assoc.
  apply has_double_hash_app.
Qed.

Lemma set_order_nil set_iter : set_order_ok set_iter -> set_iter [] = [].
Proof.
  intros Hok. destruct (Hok []) as [_ Hel].
  destruct (set_iter []) as [|x l]; [done|].
  exfalso. eapply elem_of_nil, Hel. by left.
Qed.

(** X4. A message without two [#] in a row holds no reference: nothing is
    extracted and [on_message] makes no reply to it, whoever wrote it and
    whatever else it says (a lone [#5] or a channel mention does not count). *)
Theorem no_double_hash_no_reply w unicode_Nd set_iter message st :
  set_order_ok set_iter ->
  has_double_hash (content message) = false ->
  extract_urls unicode_Nd (content message) = [] /\
  replies (emitted (on_message w unicode_Nd set_iter message) st) = [].
Proof.
  intros Hok Hno.
  assert (Hurls : extract_urls unicode_Nd (content message) = [])
    by (unfold extract_urls; by rewrite findall_needs_double_hash).
  split; [done|].
  assert (Hlinks : reply_links unicode_Nd set_iter (content message) = []).
  { unfold reply_links, links, url_set. rewrite Hurls, set_order_nil by done.
    reflexivity. }
  destruct (bot (author message)) eqn:Hbot.
  - unfold emitted, on_message. rewrite Hbot. cbn [snd ret].
    by rewrite drop_all.
  - destruct (on_message_runs w unicode_Nd set_iter message st Hbot)
      as (res & evs & Hrun & _ & _ & Hpre & _).
    apply emitted_runs in Hrun as (_ & _ & ->).
    rewrite Hlinks in Hpre. by apply prefix_nil_inv.
Qed.

Lemma no_double_hash_no_reply_witness :
  has_double_hash (content alice_pings_herself) = false /\
  replies (emitted (on_message calm no_extra_digits kept_last
                      alice_pings_herself) alice_away) = [].
Proof.
  split; [reflexivity|].
  apply (no_double_hash_no_reply calm no_extra_digits kept_last
           alice_pings_herself alice_away kept_last_ok eq_refl).
Defined.

(** ** Errors come from the platform *)

Lemma peo_ret {A} w (a : A) : platform_errors_only w (ret a).
Proof.
  intros st. exists []. rewrite app_nil_r. split_and!; [done| |done].
  by intros ? ? ?%elem_of_nil.
Qed.

Lemma peo_call w a : platform_errors_only w (call w a).
Proof.
  intros st. exists [(a, w (length (trace st)) a)]. split_and!; [done| |].
  - intros a' o [= -> ->]%list_elem_of_singleton. eauto.
  - unfold call. cbn [fst]. intros e He. exists a. cbn.
    by destruct (w (length (trace st)) a) as [e'|]; simplify_eq.
Qed.

Lemma peo_bind {A B} w (m : M A) (f : A -> M B) :
  platform_errors_only w m -> (forall a, platform_errors_only w (f a)) ->
  platform_errors_only w (bind m f).
Proof.
  intros Hm Hf st. destruct (Hm st) as (evs1 & Ht1 & Hw1 & Hr1).
  unfold bind. destruct (m st) as [[a|e] st1] eqn:E; cbn [fst snd] in *.
  - destruct (Hf a st1) as (evs2 & Ht2 & Hw2 & Hr2).
    exists (evs1 ++ evs2). rewrite Ht2, Ht1, app_assoc. split_and!; [done| |].
    + intros a' o [?|?]%elem_of_app; eauto.
    + intros e He. destruct (Hr2 e He) as [a' Hl]. exists a'.
      destruct evs2 as [|ev evs2]; [done|]. by rewrite last_app, Hl.
  - exists evs1. split_and!; [done|done|]. intros e' [= <-]. by apply Hr1.
Qed.

Lemma peo_suppress w m :
  platform_errors_only w m -> platform_errors_only w (suppress_HTTPException m).
Proof.
  intros Hm st. destruct (Hm st) as (evs & Ht & Hw & Hr).
  unfold suppress_HTTPException.
  destruct (m st) as [[[]|e] st1] eqn:E; cbn [fst snd] in *.
  - exists evs. by split_and!.
  - exists evs.
    destruct e; (split_and!; [done|done|]); try done;
      intros e' [= <-]; by apply Hr.
Qed.

Lemma peo_for_each {A} w (l : list A) (body : A -> M unit) :
  (forall x, platform_errors_only w (body x)) ->
  platform_errors_only w (for_each l body).
Proof.
  intros Hb. induction l as [|x l IH]; [apply peo_ret|].
  cbn [for_each]. apply peo_bind; [apply Hb|done].
Qed.

Lemma peo_get_afk {A} w (f : gmap Z pystr -> M A) :
  (forall reg, platform_errors_only w (f reg)) ->
  platform_errors_only w (bind get_afk f).
Proof. intros Hf st. apply (Hf (cache_afk st) st). Qed.

Lemma peo_set_afk {A} w k v (m : M A) :
  platform_errors_only w m -> platform_errors_only w (set_afk k v ;;; m).
Proof.
  intros Hm st. unfold bind, set_afk.
  apply (Hm {| cache_afk := <[k:=v]> (cache_afk st); trace := trace st |}).
Qed.

Lemma peo_afk_clear w message : platform_errors_only w (afk_clear w message).
Proof.
  intros st.
  destruct (decide (uid (author message) ∈ dom (cache_afk st))) as [Hin|Hout].
  - (* the entry tested for on line 230 is there to delete on line 231 *)
    apply elem_of_dom in Hin as Hr. destruct Hr as [r Hr].
    set (rest := fun _ : unit =>
            match nick (author message) with
            | Some n =>
                if truthy n && startswith AFK_PREFIX n
                then suppress_HTTPException
                       (call w (EditNick (uid (author message)) (drop 6 n)))
                else ret tt
            | None => ret tt
            end).
    set (st' := {| cache_afk := delete (uid (author message)) (cache_afk st);
                   trace := trace st |}).
    replace (afk_clear w message st)
      with (bind (call w (AddReaction wave)) rest st').
    2:{ unfold afk_clear, bind, get_afk, del_afk. cbn [cache_afk].
        rewrite decide_True by done. by rewrite Hr. }
    assert (Hrest : forall u, platform_errors_only w (rest u)).
    { intros u. unfold rest.
      destruct (nick (author message)) as [n|]; [|apply peo_ret].
      destruct (truthy n && startswith AFK_PREFIX n); [|apply peo_ret].
      apply peo_suppress, peo_call. }
    exact (peo_bind w _ _ (peo_call w (AddReaction wave)) Hrest st').
  - replace (afk_clear w message st) with (ret tt st); [apply peo_ret|].
    unfold afk_clear, bind, get_afk. cbn [cache_afk].
    by rewrite decide_False.
Qed.

Lemma peo_afk_notify w message : platform_errors_only w (afk_notify w message).
Proof.
  unfold afk_notify. apply peo_for_each. intros mention.
  unfold notify_mention. apply peo_get_afk. intros reg.
  destruct (reg !! uid mention) as [msg|]; [|apply peo_ret].
  destruct (truthy msg); [apply peo_call|apply peo_ret].
Qed.

Lemma peo_expand_references w unicode_Nd set_iter message :
  platform_errors_only w (expand_references w unicode_Nd set_iter message).
Proof.
  unfold expand_references.
  destruct (reply_links _ _ _); [apply peo_ret|apply peo_call].
Qed.

Lemma peo_on_message w unicode_Nd set_iter message :
  platform_errors_only w (on_message w unicode_Nd set_iter message).
Proof.
  unfold on_message. destruct (bot (author message)); [apply peo_ret|].
  apply peo_bind; [apply peo_afk_clear|]. intros _.
  apply peo_bind; [apply peo_afk_notify|]. intros _.
  apply peo_expand_references.
Qed.

Lemma peo_afk w who reason change_nick :
  platform_errors_only w (afk w who reason change_nick).
Proof.
  unfold afk. apply peo_bind; [apply peo_call|]. intros _.
  apply peo_set_afk.
  destruct (change_nick && _); [|apply peo_ret].
  apply peo_suppress, peo_call.
Qed.

Lemma peo_obliging w (m : M unit) st :
  platform_errors_only w m -> obliging w -> fst (m st) = Ok tt.
Proof.
  intros Hm Hw. destruct (Hm st) as (evs & Ht & Hev & Hr).
  destruct (fst (m st)) as [[]|e] eqn:E; [done|]. exfalso.
  destruct (Hr e eq_refl) as [a Hl].
  destruct (Hev a (Some e)) as [n Hn]; [by apply last_Some_elem_of|].
  by rewrite Hw in Hn.
Qed.

(** X5. Where the errors of [on_message] and [afk] come from.  For an
    author who is a guild member the handlers raise nothing of their own:
    when one of them raises, the error is the one its last call got from the
    platform (the [del] of line 231 cannot raise [KeyError], line 230 has
    just found the key), and with a platform that lets every call through
    they return normally.  For the author of a direct message they do raise
    of their own, the platform having refused nothing: [on_message] right
    after the wave when the author is on record, with the entry removed and
    neither notice nor reply made, and [afk] with [change_nick] after the
    response and the write to the registry, when the display name does not
    start with ["[AFK] "].  In every other run (the author not on record,
    no nickname edit asked for) they run on a direct message as they do on a
    guild message. *)
Theorem handler_error_sources w unicode_Nd set_iter :
  (forall message st e,
     fst (on_message w unicode_Nd set_iter message st) = Raised e ->
     exists a, last (emitted (on_message w unicode_Nd set_iter message) st)
               = Some (a, Some e)) /\
  (forall who reason change_nick st e,
     fst (afk w who reason change_nick st) = Raised e ->
     exists a, last (emitted (afk w who reason change_nick) st)
               = Some (a, Some e)) /\
  (obliging w ->
   (forall message st,
      fst (on_message w unicode_Nd set_iter message st) = Ok tt) /\
   (forall who reason change_nick st,
      fst (afk w who reason change_nick st) = Ok tt)) /\
  (forall dm st,
     user_bot (dm_author dm) = false ->
     is_afk (cache_afk st) (user_id (dm_author dm)) = true ->
     w (length (trace st)) (AddReaction wave) = None ->
     on_direct_message w unicode_Nd set_iter dm st =
     (Raised OtherError,
      {| cache_afk := delete (user_id (dm_author dm)) (cache_afk st);
         trace := trace st ++ [(AddReaction wave, None)] |})) /\
  (forall who reason st,
     w (length (trace st)) (Respond (lit "Set your AFK: " ++ reason)) = None ->
     startswith AFK_PREFIX (user_display_name who) = false ->
     afk_direct w who reason true st =
     (Raised OtherError,
      {| cache_afk := <[user_id who := reason]> (cache_afk st);
         trace := trace st ++
                  [(Respond (lit "Set your AFK: " ++ reason), None)] |})) /\
  (forall dm st,
     is_afk (cache_afk st) (user_id (dm_author dm)) = false ->
     on_direct_message w unicode_Nd set_iter dm st =
     on_message w unicode_Nd set_iter (as_message dm) st) /\
  (forall who reason change_nick st,
     change_nick && negb (startswith AFK_PREFIX (user_display_name who))
     = false ->
     afk_direct w who reason change_nick st =
     afk w (as_mention who) reason change_nick st).
Proof.
  assert (Hlast : forall m : M unit, platform_errors_only w m ->
            forall st e, fst (m st) = Raised e ->
                         exists a, last (emitted m st) = Some (a, Some e)).
  { intros m Hm st e He. destruct (Hm st) as (evs & Ht & _ & Hr).
    rewrite (emitted_app m st evs Ht). by apply Hr. }
  split_and!.
  - intros message. apply Hlast, peo_on_message.
  - intros who reason change_nick. apply Hlast, peo_afk.
  - intros Hw. split; intros.
    + apply (peo_obliging w); [apply peo_on_message|done].
    + apply (peo_obliging w); [apply peo_afk|done].
  - intros dm st Hbot Hafk Hw. apply is_afk_true in Hafk as [r Hr].
    unfold on_direct_message. rewrite Hbot.
    unfold bind at 1, afk_clear_direct, bind, get_afk, del_afk.
    cbn [cache_afk]. rewrite decide_True by (apply elem_of_dom; eauto).
    rewrite Hr. unfold call. cbn [cache_afk trace]. by rewrite Hw.
  - intros who reason st Hw Hpre.
    unfold afk_direct, bind, set_afk, call. cbn [cache_afk trace].
    by rewrite Hw, Hpre.
  - intros dm st Hout. apply bool_decide_eq_false_1 in Hout.
    unfold on_direct_message, on_message, as_message.
    cbn [author content mentions as_mention bot uid].
    destruct (user_bot (dm_author dm)); [done|].
    set (message := {| author := _; content := _; mentions := _ |}).
    assert (afk_clear_direct w dm st = (Ok tt, st)) as Hdirect.
    { unfold afk_clear_direct, bind, get_afk.
      by destruct (decide (user_id (dm_author dm) ∈ dom (cache_afk st))). }
    assert (afk_clear w message st = (Ok tt, st)) as Hguild.
    { unfold afk_clear, bind, get_afk. cbn [message author as_mention uid].
      by destruct (decide (user_id (dm_author dm) ∈ dom (cache_afk st))). }
    unfold bind at 1 3. rewrite Hdirect, Hguild.
    unfold bind, afk_notify, expand_references.
    cbn [message mentions content].
    destruct (for_each _ _ st) as [[[]|e] st2]; [|done].
    by destruct (reply_links unicode_Nd set_iter (dm_content dm)).
  - intros who reason change_nick st Hno.
    unfold afk_direct, afk. cbn [as_mention uid display_name].
    by rewrite Hno.
Qed.

(** ** The order of the calls *)

Lemma afk_clear_exact w message st :
  is_afk (cache_afk st) (uid (author message)) = true ->
  let o1 := w (length (trace st)) (AddReaction wave) in
  let o2 := w (S (length (trace st)))
              (EditNick (uid (author message))
                 (drop 6 (default [] (nick (author message))))) in
  emitted (afk_clear w message) st = clear_calls message o1 o2 /\
  cache_afk (snd (afk_clear w message st))
  = delete (uid (author message)) (cache_afk st).
Proof.
  intros Hafk o1 o2. apply is_afk_true in Hafk as Hr. destruct Hr as [r Hr].
  assert (runs (afk_clear w message) st (fst (afk_clear w message st))
            (delete (uid (author message)) (cache_afk st))
            (clear_calls message o1 o2)) as Hrun.
  { unfold runs, afk_clear, bind, get_afk, del_afk, clear_calls. cbn [cache_afk].
    rewrite decide_True by (apply elem_of_dom; eauto). rewrite Hr.
    unfold suppress_HTTPException, call, ret. cbn [cache_afk trace fst].
    fold o1. destruct o1 as [e|]; [done|].
    unfold o2. clear o2.
    destruct (nick (author message)) as [n|]; [|done]. cbn [default].
    destruct (truthy n && startswith AFK_PREFIX n); [|done].
    cbn [cache_afk trace fst].
    rewrite length_app, Nat.add_1_r, <- app_assoc.
    by destruct (w (S (length (trace st))) _) as [[]|]. }
  by apply emitted_runs in Hrun as (_ & ? & ?).
Qed.

Lemma afk_clear_idle w message st :
  is_afk (cache_afk st) (uid (author message)) = false ->
  afk_clear w message st = (Ok tt, st).
Proof.
  intros Hafk. unfold afk_clear, bind, get_afk. cbn [cache_afk].
  rewrite decide_False; [done|].
  unfold is_afk in Hafk. by apply bool_decide_eq_false_1 in Hafk.
Qed.

Lemma afk_notify_shape w message st :
  exists res evs,
    runs (afk_notify w message) st res (cache_afk st) evs /\
    Forall is_send evs /\ (length evs <= length (mentions message))%nat.
Proof.
  unfold afk_notify. generalize (mentions message) as ms.
  intros ms. revert st. induction ms as [|mention ms IH]; intros st.
  - exists (Ok tt), []. split; [apply runs_ret|]. by split.
  - unfold runs. cbn [for_each]. unfold bind at 1.
    unfold notify_mention at 1, bind at 1, get_afk. cbn [cache_afk length].
    assert (Hskip : exists res evs,
              for_each ms (notify_mention w) st
              = (res, {| cache_afk := cache_afk st; trace := trace st ++ evs |}) /\
              Forall is_send evs /\ (length evs <= S (length ms))%nat).
    { destruct (IH st) as (res & evs & Hrun & Hs & Hl).
      exists res, evs. split_and!; [done|done|lia]. }
    destruct (cache_afk st !! uid mention) as [msg|]; [|exact Hskip].
    destruct (truthy msg); [|exact Hskip].
    unfold call. cbn [cache_afk trace].
    set (a := ChannelSend _).
    destruct (w (length (trace st)) a) as [e|].
    + exists (Raised e), [(a, Some e)]. split_and!; [done| |cbn; lia].
      constructor; [by eexists|done].
    + destruct (IH {| cache_afk := cache_afk st; trace := trace st ++ [(a, None)] |})
        as (res & evs & Hrun & Hs & Hl).
      exists res, ((a, None) :: evs). unfold runs in Hrun. cbn in Hrun.
      rewrite Hrun, <- app_assoc. split_and!; [done| |cbn; lia].
      constructor; [by eexists|done].
Qed.

Lemma expand_references_shape w unicode_Nd set_iter message st :
  exists res evs,
    runs (expand_references w unicode_Nd set_iter message) st res
         (cache_afk st) evs /\
    (evs = [] \/ exists text o, evs = [(Reply text, o)]).
Proof.
  unfold expand_references.
  destruct (reply_links unicode_Nd set_iter (content message)) as [|l ls].
  - exists (Ok tt), []. split; [apply runs_ret|]. by left.
  - eexists _, _. split; [apply runs_call|]. right. eauto.
Qed.

Lemma on_message_shape w unicode_Nd set_iter message st :
  bot (author message) = false ->
  exists notified replied,
    emitted (on_message w unicode_Nd set_iter message) st =
    emitted (afk_clear w message) st ++ notified ++ replied /\
    Forall is_send notified /\
    (length notified <= length (mentions message))%nat /\
    (replied = [] \/ exists text o, replied = [(Reply text, o)]).
Proof.
  intros Hbot.
  assert (Hgoal : forall evs r reg' notified replied,
            runs (on_message w unicode_Nd set_iter message) st r reg' evs ->
            evs = emitted (afk_clear w message) st ++ notified ++ replied ->
            emitted (on_message w unicode_Nd set_iter message) st =
            emitted (afk_clear w message) st ++ notified ++ replied).
  { intros evs r reg' notified replied Hrun <-.
    by apply emitted_runs in Hrun as (_ & _ & ?). }
  unfold on_message in *. rewrite Hbot in *.
  destruct (afk_clear_runs w message st) as (r1 & e1 & H1 & _).
  pose proof (runs_bind _
    (afk_notify w message ;;; expand_references w unicode_Nd set_iter message)
    _ _ _ _ H1) as HB.
  apply emitted_runs in H1 as H1'. destruct H1' as (_ & _ & He1).
  destruct r1 as [[]|e].
  2:{ exists [], []. split_and!; [|done|cbn; lia|by left].
      eapply Hgoal; [exact HB|]. by rewrite He1, !app_nil_r. }
  set (st1 := {| cache_afk := _; trace := _ |}) in HB.
  destruct (afk_notify_shape w message st1) as (r2 & e2 & H2 & Hs2 & Hl2).
  pose proof (runs_bind _ (expand_references w unicode_Nd set_iter message)
                _ _ _ _ H2) as HB2.
  destruct r2 as [[]|e].
  2:{ exists e2, []. split_and!; [|done|done|by left].
      eapply Hgoal; [by apply HB|]. by rewrite He1, !app_nil_r. }
  set (st2 := {| cache_afk := _; trace := _ |}) in HB2.
  destruct (expand_references_shape w unicode_Nd set_iter message st2)
    as (r3 & e3 & H3 & Hr3).
  exists e2, e3. split_and!; [|done..].
  eapply Hgoal; [by apply HB, HB2|]. by rewrite He1.
Qed.

(** X6. The calls of [on_message] for a human author come in a fixed order:
    first those of the clear phase (nothing, or the wave, or the wave
    followed by one nickname edit, which is for the author and drops the
    first six characters of the nickname), then the AFK notices, at most
    one per mention and all sent to the channel, and last at most one
    reply.  The command response is never used. *)
Theorem on_message_call_order w unicode_Nd set_iter message st :
  bot (author message) = false ->
  exists cleared notified replied,
    emitted (on_message w unicode_Nd set_iter message) st =
    cleared ++ notified ++ replied /\
    (cleared = [] \/ exists o1 o2, cleared = clear_calls message o1 o2) /\
    Forall is_send notified /\
    (length notified <= length (mentions message))%nat /\
    (replied = [] \/ exists text o, replied = [(Reply text, o)]).
Proof.
  intros Hbot.
  destruct (on_message_shape w unicode_Nd set_iter message st Hbot)
    as (notified & replied & Hem & Hs & Hl & Hr).
  exists (emitted (afk_clear w message) st), notified, replied.
  split_and!; try done.
  destruct (is_afk (cache_afk st) (uid (author message))) eqn:Hafk.
  - right. destruct (afk_clear_exact w message st Hafk) as [-> _]. eauto.
  - left. unfold emitted. rewrite afk_clear_idle by done. cbn [snd].
    by rewrite drop_all.
Qed.

Lemma on_message_call_order_witness :
  emitted (on_message renames_denied no_extra_digits kept_last alice_returns)
          both_away
  = clear_calls alice_returns None (Some HTTPException)
    ++ [(ChannelSend (lit "Bob is AFK: asleep"), None)]
    ++ [(Reply (lit "https://github.com/Pycord-Development/pycord/pull/7"), None)]
  /\ exists cleared notified replied,
    emitted (on_message renames_denied no_extra_digits kept_last alice_returns)
            both_away = cleared ++ notified ++ replied /\
    (cleared = [] \/ exists o1 o2, cleared = clear_calls alice_returns o1 o2) /\
    Forall is_send notified /\
    (length notified <= length (mentions alice_returns))%nat /\
    (replied = [] \/ exists text o, replied = [(Reply text, o)]).
Proof.
  split; [vm_compute; reflexivity|].
  apply (on_message_call_order renames_denied no_extra_digits kept_last
           alice_returns both_away eq_refl).
Defined.

(** ** The [afk] command and the way back *)

Lemma nick_edits_app evs1 evs2 :
  nick_edits (evs1 ++ evs2) = nick_edits evs1 ++ nick_edits evs2.
Proof. apply omap_app. Qed.

Lemma nick_edits_sends evs : Forall is_send evs -> nick_edits evs = [].
Proof.
  induction 1 as [|[a o] evs [text Ha] _ IH]; [done|].
  cbn in Ha. subst a. exact IH.
Qed.

Lemma afk_exact w who reason change_nick st :
  let respond := Respond (lit "Set your AFK: " ++ reason) in
  let edit := EditNick (uid who) (AFK_PREFIX ++ display_name who) in
  let o1 := w (length (trace st)) respond in
  let o2 := w (S (length (trace st))) edit in
  afk w who reason change_nick st =
  match o1 with
  | Some e =>
      (Raised e,
       {| cache_afk := cache_afk st; trace := trace st ++ [(respond, Some e)] |})
  | None =>
      if change_nick && negb (startswith AFK_PREFIX (display_name who))
      then (match o2 with
            | None | Some HTTPException => Ok tt
            | Some e => Raised e
            end,
            {| cache_afk := <[uid who := reason]> (cache_afk st);
               trace := trace st ++ [(respond, None); (edit, o2)] |})
      else (Ok tt,
            {| cache_afk := <[uid who := reason]> (cache_afk st);
               trace := trace st ++ [(respond, None)] |})
  end.
Proof.
  intros respond edit o1 o2. unfold afk, bind, set_afk, call at 1.
  cbn [cache_afk trace]. fold respond. fold o1. destruct o1 as [e|]; [done|].
  destruct (change_nick && negb (startswith AFK_PREFIX (display_name who)));
    [|done].
  unfold suppress_HTTPException, call. cbn [cache_afk trace].
  rewrite length_app, Nat.add_1_r, <- app_assoc. fold edit. unfold o2.
  by destruct (w (S (length (trace st))) edit) as [[]|].
Qed.

(** X7. What can go wrong in the [afk] command.  When the response cannot
    be sent the command raises at once: nobody is marked AFK and no nickname
    is touched.  When the response went out and the nickname edit fails, the
    user is marked AFK all the same; an [HTTPException] of the edit is
    swallowed and the command ends normally, any other error of the edit
    leaves the command with the entry already written. *)
Theorem afk_failure_modes w who reason change_nick st :
  let respond := Respond (lit "Set your AFK: " ++ reason) in
  let edit := EditNick (uid who) (AFK_PREFIX ++ display_name who) in
  (forall e,
     w (length (trace st)) respond = Some e ->
     afk w who reason change_nick st =
     (Raised e,
      {| cache_afk := cache_afk st;
         trace := trace st ++ [(respond, Some e)] |})) /\
  (forall e,
     w (length (trace st)) respond = None ->
     change_nick = true ->
     startswith AFK_PREFIX (display_name who) = false ->
     w (S (length (trace st))) edit = Some e ->
     afk w who reason change_nick st =
     (match e with HTTPException => Ok tt | _ => Raised e end,
      {| cache_afk := <[uid who := reason]> (cache_afk st);
         trace := trace st ++ [(respond, None); (edit, Some e)] |})).
Proof.
  intros respond edit. split.
  - intros e Hw. rewrite afk_exact. fold respond. by rewrite Hw.
  - intros e Hw1 -> Hpre Hw2. rewrite afk_exact. fold respond edit.
    rewrite Hw1, Hpre, Hw2. by destruct e.
Qed.

(** X8. Going AFK and coming back is a round trip.  With a platform that
    lets the calls through, [afk] with [change_nick] asks for the display
    name with ["[AFK] "] in front; once that nickname is in place, the
    user's next message asks for exactly the old display name back, and the
    registry is as it was without an entry for the user. *)
Theorem afk_and_back w unicode_Nd set_iter who reason st message :
  obliging w ->
  bot who = false ->
  startswith AFK_PREFIX (display_name who) = false ->
  author message = marked_afk who ->
  let st1 := snd (afk w who reason true st) in
  nick_edits (emitted (afk w who reason true) st)
  = [(uid who, AFK_PREFIX ++ display_name who)] /\
  nick_edits (emitted (on_message w unicode_Nd set_iter message) st1)
  = [(uid who, display_name who)] /\
  cache_afk (snd (on_message w unicode_Nd set_iter message st1))
  = delete (uid who) (cache_afk st).
Proof.
  intros Hw Hbot Hpre Hauthor st1.
  assert (Hafk : afk w who reason true st =
    (Ok tt,
     {| cache_afk := <[uid who := reason]> (cache_afk st);
        trace := trace st ++
                 [(Respond (lit "Set your AFK: " ++ reason), None);
                  (EditNick (uid who) (AFK_PREFIX ++ display_name who), None)] |})).
  { rewrite afk_exact, !Hw, Hpre. done. }
  assert (Hbot' : bot (author message) = false) by (by rewrite Hauthor).
  assert (Hreg1 : cache_afk st1 = <[uid who := reason]> (cache_afk st))
    by (unfold st1; by rewrite Hafk).
  split_and!.
  - rewrite (emitted_app _ st _ (f_equal (fun r => trace (snd r)) Hafk)). done.
  - destruct (on_message_shape w unicode_Nd set_iter message st1 Hbot')
      as (notified & replied & -> & Hs & _ & Hr).
    assert (is_afk (cache_afk st1) (uid (author message)) = true) as Hisafk.
    { apply is_afk_true. rewrite Hreg1, Hauthor. cbn [uid marked_afk].
      rewrite lookup_insert_eq. by eexists. }
    destruct (afk_clear_exact w message st1 Hisafk) as [-> _].
    rewrite !nick_edits_app, (nick_edits_sends notified Hs).
    assert (nick_edits replied = []) as ->
      by (by destruct Hr as [->|(text & o & ->)]).
    rewrite !app_nil_r. unfold clear_calls. rewrite !Hw, Hauthor.
    cbn [nick marked_afk uid].
    assert (truthy (AFK_PREFIX ++ display_name who)
            && startswith AFK_PREFIX (AFK_PREFIX ++ display_name who) = true)
      as -> by (by vm_compute).
    done.
  - rewrite on_message_registry by done.
    rewrite Hreg1, Hauthor. cbn [uid marked_afk]. apply delete_insert_eq.
Qed.

Lemma afk_and_back_witness :
  nick_edits (emitted (afk calm bob (lit "lunch") true) fresh)
  = [(1002%Z, lit "[AFK] Bob")] /\
  nick_edits (emitted (on_message calm no_extra_digits kept_last
                         {| author := marked_afk bob; content := lit "hi";
                            mentions := [] |})
                (snd (afk calm bob (lit "lunch") true fresh)))
  = [(1002%Z, lit "Bob")].
Proof.
  destruct (afk_and_back calm no_extra_digits kept_last bob (lit "lunch") fresh
              {| author := marked_afk bob; content := lit "hi"; mentions := [] |})
    as (H1 & H2 & _); [done | reflexivity | reflexivity | reflexivity |].
  split; [exact H1 | exact H2].
Defined.

(** X9. Insert, then look up.  Take an [afk] command with a non-empty
    reason whose response went out (its nickname edit may have failed), and
    then a message of another human on which [on_message] returns normally.
    Every mention of the user in that message is answered with
    ["{display_name} is AFK: {reason}"], the reason being the one just
    given, also when an older one was on record; the notices sent are those
    of the registry with the new entry and without the author's. *)
Theorem afk_then_mentioned w unicode_Nd set_iter who reason change_nick st
        message :
  truthy reason = true ->
  bot (author message) = false ->
  uid (author message) ≠ uid who ->
  w (length (trace st)) (Respond (lit "Set your AFK: " ++ reason)) = None ->
  fst (on_message w unicode_Nd set_iter message
         (snd (afk w who reason change_nick st))) = Ok tt ->
  sends (emitted (on_message w unicode_Nd set_iter message)
           (snd (afk w who reason change_nick st)))
  = afk_replies
      (delete (uid (author message)) (<[uid who := reason]> (cache_afk st)))
      (mentions message) /\
  forall mention,
    mention ∈ mentions message ->
    uid mention = uid who ->
    display_name mention ++ lit " is AFK: " ++ reason
      ∈ sends (emitted (on_message w unicode_Nd set_iter message)
                 (snd (afk w who reason change_nick st))).
Proof.
  intros Hreason Hbot Hother Hw Hfst.
  set (st1 := snd (afk w who reason change_nick st)) in *.
  assert (Hreg1 : cache_afk st1 = <[uid who := reason]> (cache_afk st)).
  { unfold st1. rewrite afk_registry. by rewrite Hw. }
  destruct (on_message_runs w unicode_Nd set_iter message st1 Hbot)
    as (res & evs & Hrun & _ & _ & _ & Hok).
  apply emitted_runs in Hrun as (Hres & _ & ->).
  destruct Hok as [-> _]; [congruence|]. rewrite Hreg1.
  split; [done|]. intros mention Hin Hu.
  induction (mentions message) as [|m ms IH]; [by apply elem_of_nil in Hin|].
  rewrite afk_replies_cons. apply elem_of_app.
  apply elem_of_cons in Hin as [<-|Hin]; [left|right; by apply IH].
  rewrite Hu, lookup_delete_ne, lookup_insert_eq by done.
  rewrite Hreason. by left.
Qed.

Lemma afk_then_mentioned_witness :
  fst (on_message renames_denied no_extra_digits kept_last bob_pings_alice
         (snd (afk renames_denied alice (lit "back at two") true alice_away)))
  = Ok tt /\
  lit "[AFK] Alice is AFK: back at two"
    ∈ sends (emitted (on_message renames_denied no_extra_digits kept_last
                        bob_pings_alice)
               (snd (afk renames_denied alice (lit "back at two") true
                       alice_away))).
Proof.
  assert (Hfst : fst (on_message renames_denied no_extra_digits kept_last
                        bob_pings_alice
                        (snd (afk renames_denied alice (lit "back at two") true
                                alice_away))) = Ok tt)
    by (vm_compute; reflexivity).
  split; [exact Hfst|].
  destruct (afk_then_mentioned renames_denied no_extra_digits kept_last alice
              (lit "back at two") true alice_away bob_pings_alice
              eq_refl eq_refl) as [_ Hin]; [done | reflexivity | exact Hfst |].
  apply (Hin alice); [by left | reflexivity].
Defined.



(** ** serverinfo: the creation time *)

Lemma shiftr_snowflake ms low :
  (0 <= low < 2 ^ 22)%Z -> Z.shiftr (snowflake ms low) 22 = ms.
Proof.
  intros Hlow. unfold snowflake.
  rewrite Z.shiftr_lor, Z.shiftr_shiftl_l by lia.
  rewrite Z.sub_diag, Z.shiftl_0_r.
  rewrite (Z.shiftr_div_pow2 low) by lia.
  rewrite Z.div_small by lia. apply Z.lor_0_r.
Qed.

(** X11. The creation time shown is the time in the snowflake: for an
    identifier made of [ms] milliseconds since the first second of 2015 and
    any 22 low bits, it is the whole seconds of [ms] counted from 1970.  The
    worker, process and sequence bits never change it. *)
Theorem creation_of_snowflake ms low :
  (0 <= low < 2 ^ 22)%Z ->
  creation (snowflake ms low) = ((ms + 1420070400000) / 1000)%Z.
Proof. intros Hlow. unfold creation. by rewrite shiftr_snowflake. Qed.

Lemma creation_of_snowflake_witness :
  creation (snowflake 200000000000 4194303) = 1620070400%Z.
Proof.
  rewrite (creation_of_snowflake 200000000000 4194303); [reflexivity|lia].
Defined.

(** X12. Later guilds show later dates, and no guild with a non-negative
    identifier is shown as older than the first second of 2015
    (1420070400). *)
Theorem creation_monotone id1 id2 :
  (0 <= id1 <= id2)%Z ->
  (1420070400 <= creation id1 <= creation id2)%Z.
Proof.
  intros [H0 Hle]. unfold creation.
  assert (0 <= Z.shiftr id1 22)%Z by (by apply Z.shiftr_nonneg).
  assert (Z.shiftr id1 22 <= Z.shiftr id2 22)%Z.
  { rewrite !Z.shiftr_div_pow2 by lia. apply Z.div_le_mono; lia. }
  split.
  - change 1420070400%Z with (1420070400000 / 1000)%Z.
    apply Z.div_le_mono; lia.
  - apply Z.div_le_mono; lia.
Qed.

Lemma creation_monotone_witness :
  (1420070400 <= creation 175928847299117063
                <= creation 881207955029110855)%Z.
Proof. apply creation_monotone. lia. Defined.

(** ** The slash commands *)

Lemma made_app {A} (m : C A) st evs :
  calls (snd (m st)) = calls st ++ evs -> made m st = evs.
Proof. intros E. unfold made. rewrite E. apply drop_app_length. Qed.

Lemma emoji_delete_loop_exact w emojis name reason st :
  emoji_delete_loop w emojis name reason st =
  match first_named emojis name with
  | None =>
      ccall w (CtxRespond (lit "No emoji named " ++ dquote ++ name
                           ++ dquote ++ lit " found.") false) st
  | Some emoji =>
      cbind (ccall w (EmojiDelete (emoji_id emoji) reason))
            (fun _ => ccall w (CtxRespond (lit "Successfully deleted `:"
                                           ++ name ++ lit ":`.") false)) st
  end.
Proof.
  unfold first_named. induction emojis as [|emoji rest IH]; [done|].
  cbn [emoji_delete_loop find].
  destruct (decide (emoji_name emoji = name)) as [E|E].
  - by rewrite bool_decide_eq_true_2.
  - by rewrite bool_decide_eq_false_2.
Qed.

(** X13. [emoji delete] asks the platform to delete at most one emoji: the
    first of the guild with the given name, also when others bear the same
    name.  It then reports the deletion; when the deletion fails the error
    leaves the command and nothing is reported; when no emoji has the name
    nothing is deleted and the command says so. *)
Theorem emoji_delete_first_only w ctx name reason st :
  let run := emoji_delete w ctx name reason in
  match first_named (ctx_guild_emojis ctx) name with
  | None =>
      requests run st =
      [CtxRespond (lit "No emoji named " ++ dquote ++ name ++ dquote
                   ++ lit " found.") false]
  | Some emoji =>
      emoji_name emoji = name /\
      deletions (made run st) = [emoji_id emoji] /\
      match w (length (calls st)) (EmojiDelete (emoji_id emoji) reason) with
      | None =>
          requests run st =
          [EmojiDelete (emoji_id emoji) reason;
           CtxRespond (lit "Successfully deleted `:" ++ name ++ lit ":`.") false]
      | Some e =>
          requests run st = [EmojiDelete (emoji_id emoji) reason] /\
          fst (run st) = Raised e
      end
  end.
Proof.
  intros run. unfold requests, run, emoji_delete, made.
  rewrite emoji_delete_loop_exact.
  destruct (first_named (ctx_guild_emojis ctx) name) as [emoji|] eqn:Hf.
  - split.
    { apply find_some in Hf as [_ Hf]. by apply bool_decide_eq_true_1 in Hf. }
    unfold cbind, ccall. cbn [calls suggestions_of].
    destruct (w (length (calls st)) _) as [e|].
    + cbn [snd calls fst]. rewrite drop_app_length. done.
    + cbn [snd calls fst]. rewrite <- app_assoc, drop_app_length. done.
  - unfold ccall. cbn [snd calls]. by rewrite drop_app_length.
Qed.

(** X14. [emoji add] creates an emoji only for an answer of the web server
    with a status from 200 to 299.  With every call going through, such an
    answer leads to the fetch, the read, the creation under the given name
    with the body read, and the report; any other status leads to the fetch
    and a message with the status and the reason, and nothing else. *)
Theorem emoji_add_status_gate w ctx name url res created st :
  let run := emoji_add w ctx name url res created in
  ((status res < 200 \/ 300 <= status res)%Z ->
   creations (made run st) = []) /\
  (cobliging w ->
   ((200 <= status res < 300)%Z ->
    requests run st =
    [HttpGet url; HttpRead; CreateCustomEmoji name (body res);
     CtxRespond (created ++ lit " Successfully created emoji.") false]) /\
   ((status res < 200 \/ 300 <= status res)%Z ->
    requests run st =
    [HttpGet url;
     CtxRespond (lit "An HTTP error has occured while fetching the image: "
                 ++ str_int (status res) ++ lit " " ++ http_reason res)
                false])).
Proof.
  intros run. unfold requests, run, emoji_add, made. split_and!.
  - intros Hout.
    assert (((status res <? 300) && (200 <=? status res))%Z = false) as ->.
    { apply andb_false_iff. rewrite Z.ltb_ge, Z.leb_gt. lia. }
    unfold cbind, ccall. cbn [calls suggestions_of].
    destruct (w (length (calls st)) _) as [e|]; cbn [snd calls].
    + by rewrite drop_app_length.
    + by rewrite <- app_assoc, drop_app_length.
  - intros Hw. unfold cbind, ccall. cbn [calls suggestions_of]. split.
    + intros Hin.
      assert (((status res <? 300) && (200 <=? status res))%Z = true) as ->.
      { apply andb_true_iff. rewrite Z.ltb_lt, Z.leb_le. lia. }
      repeat (rewrite Hw; cbn [snd calls suggestions_of]).
      rewrite <- !app_assoc, drop_app_length. done.
    + intros Hout.
      assert (((status res <? 300) && (200 <=? status res))%Z = false) as ->.
      { apply andb_false_iff. rewrite Z.ltb_ge, Z.leb_gt. lia. }
      repeat (rewrite Hw; cbn [snd calls suggestions_of]).
      rewrite <- !app_assoc, drop_app_length. done.
Qed.




Lemma ccall_ok w r st :
  cobliging w ->
  ccall w r st =
  (Ok tt, {| suggestions_of := suggestions_of st;
             calls := calls st ++ [(r, None)] |}).
Proof. intros Hw. unfold ccall. by rewrite Hw. Qed.

Lemma suggestions_set_ok w ctx channel st :
  cobliging w ->
  suggestions_set w ctx channel st =
  (Ok tt,
   {| suggestions_of :=
        <[ctx_guild_id ctx := channel_id channel]> (suggestions_of st);
      calls := calls st ++
        [(UpdateOrCreate (ctx_guild_id ctx) (channel_id channel), None);
         (CtxRespond (lit "Member suggestions will now be sent to "
                      ++ channel_mention channel ++ lit ".") false, None)] |}).
Proof.
  intros Hw. unfold suggestions_set, cbind, put_suggestions.
  rewrite !ccall_ok by done. cbn [suggestions_of calls].
  by rewrite <- app_assoc.
Qed.

Lemma suggestions_disable_ok w ctx st :
  cobliging w ->
  suggestions_disable w ctx st =
  match suggestions_of st !! ctx_guild_id ctx with
  | Some c =>
      if decide (c = 0%Z) then
        (Ok tt,
         {| suggestions_of := suggestions_of st;
            calls := calls st ++
              [(FilterFirst (ctx_guild_id ctx), None);
               (CtxRespond
                  (lit "Member suggestions are already disabled for this server.")
                  false, None)] |})
      else
        (Ok tt,
         {| suggestions_of := <[ctx_guild_id ctx := 0%Z]> (suggestions_of st);
            calls := calls st ++
              [(FilterFirst (ctx_guild_id ctx), None);
               (SaveSuggestions (ctx_guild_id ctx) 0, None);
               (CtxRespond
                  (lit "Member suggestions have been disabled for this server.")
                  false, None)] |})
  | None =>
      (Ok tt,
       {| suggestions_of := suggestions_of st;
          calls := calls st ++
            [(FilterFirst (ctx_guild_id ctx), None);
             (CtxRespond
                (lit "Member suggestions are already disabled for this server.")
                false, None)] |})
  end.
Proof.
  intros Hw. unfold suggestions_disable, cbind, get_table, put_suggestions.
  rewrite ccall_ok by done. cbn [suggestions_of calls].
  destruct (suggestions_of st !! ctx_guild_id ctx) as [c|].
  - destruct (decide (c = 0%Z)).
    + rewrite ccall_ok by done. cbn [suggestions_of calls].
      by rewrite <- app_assoc.
    + repeat (rewrite ccall_ok by done; cbn [suggestions_of calls]).
      by rewrite <- !app_assoc.
  - rewrite ccall_ok by done. cbn [suggestions_of calls].
    by rewrite <- app_assoc.
Qed.

(** X16. Setting the suggestions channel and disabling suggestions
    compose as one expects, with every call going through: after
    [suggestions set] the guild's row holds the channel; a first
    [suggestions disable] writes 0 into it and says suggestions have been
    disabled; a second one writes nothing and says they already are. *)
Theorem suggestions_set_then_disable w ctx channel st :
  cobliging w ->
  channel_id channel ≠ 0%Z ->
  let st1 := snd (suggestions_set w ctx channel st) in
  let st2 := snd (suggestions_disable w ctx st1) in
  let st3 := snd (suggestions_disable w ctx st2) in
  suggestions_of st1 !! ctx_guild_id ctx = Some (channel_id channel) /\
  cresponses (made (suggestions_disable w ctx) st1) =
    [lit "Member suggestions have been disabled for this server."] /\
  suggestions_of st2 !! ctx_guild_id ctx = Some 0%Z /\
  cresponses (made (suggestions_disable w ctx) st2) =
    [lit "Member suggestions are already disabled for this server."] /\
  suggestions_of st3 = suggestions_of st2.
Proof.
  intros Hw Hc st1 st2 st3.
  assert (H1 : suggestions_of st1 !! ctx_guild_id ctx = Some (channel_id channel)).
  { unfold st1. rewrite suggestions_set_ok by done. apply lookup_insert_eq. }
  assert (E2 : suggestions_disable w ctx st1 =
    (Ok tt,
     {| suggestions_of := <[ctx_guild_id ctx := 0%Z]> (suggestions_of st1);
        calls := calls st1 ++
          [(FilterFirst (ctx_guild_id ctx), None);
           (SaveSuggestions (ctx_guild_id ctx) 0, None);
           (CtxRespond
              (lit "Member suggestions have been disabled for this server.")
              false, None)] |})).
  { rewrite suggestions_disable_ok, H1 by done. by rewrite decide_False. }
  assert (H2 : suggestions_of st2 !! ctx_guild_id ctx = Some 0%Z).
  { unfold st2. rewrite E2. apply lookup_insert_eq. }
  assert (E3 : suggestions_disable w ctx st2 =
    (Ok tt,
     {| suggestions_of := suggestions_of st2;
        calls := calls st2 ++
          [(FilterFirst (ctx_guild_id ctx), None);
           (CtxRespond
              (lit "Member suggestions are already disabled for this server.")
              false, None)] |})).
  { rewrite suggestions_disable_ok, H2 by done. by rewrite decide_True. }
  split_and!; [done | | done | |].
  - rewrite (made_app _ st1 _ (f_equal (fun r => calls (snd r)) E2)). done.
  - rewrite (made_app _ st2 _ (f_equal (fun r => calls (snd r)) E3)). done.
  - unfold st3. by rewrite E3.
Qed.

Lemma suggestions_set_then_disable_witness :
  cresponses
    (made (suggestions_disable ccalm
             {| ctx_author_id := 1001; ctx_author_str := lit "alice";
                ctx_author_avatar := lit "https://cdn.example/a.png";
                ctx_guild_id := 77; ctx_guild_emojis := [] |})
       (snd (suggestions_set ccalm
               {| ctx_author_id := 1001; ctx_author_str := lit "alice";
                  ctx_author_avatar := lit "https://cdn.example/a.png";
                  ctx_guild_id := 77; ctx_guild_emojis := [] |}
               {| channel_id := 55; channel_mention := lit "<#55>" |}
               {| suggestions_of := ∅; calls := [] |})))
  = [lit "Member suggestions have been disabled for this server."].
Proof.
  destruct (suggestions_set_then_disable ccalm
              {| ctx_author_id := 1001; ctx_author_str := lit "alice";
                 ctx_author_avatar := lit "https://cdn.example/a.png";
                 ctx_guild_id := 77; ctx_guild_emojis := [] |}
              {| channel_id := 55; channel_mention := lit "<#55>" |}
              {| suggestions_of := ∅; calls := [] |})
    as (_ & H & _); [done | done | exact H].
Defined.

(** X17. Whatever the platform and the table answer, [suggestions disable]
    adds no row to the guild table, leaves the rows of the other guilds as
    they are and writes nothing but 0; and when the table's first answer is
    an error, neither command writes anything or responds. *)
Theorem suggestions_table_safety w ctx channel st :
  let after := suggestions_of (snd (suggestions_disable w ctx st)) in
  dom after = dom (suggestions_of st) /\
  (forall g, g ≠ ctx_guild_id ctx -> after !! g = suggestions_of st !! g) /\
  (after !! ctx_guild_id ctx = suggestions_of st !! ctx_guild_id ctx \/
   after !! ctx_guild_id ctx = Some 0%Z) /\
  (forall e,
     w (length (calls st)) (FilterFirst (ctx_guild_id ctx)) = Some e ->
     fst (suggestions_disable w ctx st) = Raised e /\
     after = suggestions_of st /\
     cresponses (made (suggestions_disable w ctx) st) = []) /\
  (forall e,
     w (length (calls st))
       (UpdateOrCreate (ctx_guild_id ctx) (channel_id channel)) = Some e ->
     fst (suggestions_set w ctx channel st) = Raised e /\
     suggestions_of (snd (suggestions_set w ctx channel st)) = suggestions_of st /\
     cresponses (made (suggestions_set w ctx channel) st) = []).
Proof.
  intros after.
  assert (Hcases : after = suggestions_of st \/
            (is_Some (suggestions_of st !! ctx_guild_id ctx) /\
             after = <[ctx_guild_id ctx := 0%Z]> (suggestions_of st))).
  { unfold after, suggestions_disable, cbind, get_table, put_suggestions, ccall.
    cbn [suggestions_of calls].
    destruct (w (length (calls st)) _) as [e|]; [by left|].
    cbn [suggestions_of calls].
    destruct (suggestions_of st !! ctx_guild_id ctx) as [c|] eqn:Hc.
    - destruct (decide (c = 0%Z)).
      + left. by destruct (w _ _).
      + destruct (w _ (SaveSuggestions _ _)) as [e|]; [by left|].
        cbn [suggestions_of calls]. right. split; [by eexists|].
        by destruct (w _ _).
    - left. by destruct (w _ _). }
  split_and!.
  - destruct Hcases as [->|[[c Hc] ->]]; [done|].
    apply dom_insert_lookup_L. by eexists.
  - intros g Hg. destruct Hcases as [->|[_ ->]]; [done|].
    by rewrite lookup_insert_ne.
  - destruct Hcases as [->|[_ ->]]; [by left|]. right. apply lookup_insert_eq.
  - intros e Hw. unfold after, made, suggestions_disable, cbind, ccall.
    rewrite Hw. cbn [fst snd suggestions_of calls].
    by rewrite drop_app_length.
  - intros e Hw. unfold made, suggestions_set, cbind, ccall.
    rewrite Hw. cbn [fst snd suggestions_of calls].
    by rewrite drop_app_length.
Qed.

(** ** search: the encoded query *)

Example quote_plus_ex :
  quote_plus (lit "a b&c=d/e~" ++ [233; 8364; 128075]) =
  Some (lit "a+b%26c%3Dd%2Fe~%C3%A9%E2%82%AC%F0%9F%91%8B").
Proof. vm_compute. reflexivity. Qed.

Lemma hex_digit_safe n : n < 16 -> is_unreserved (hex_digit n) = true.
Proof.
  intros Hn.
  assert (Htable : forallb (fun k => is_unreserved (hex_digit (N.of_nat k)))
                     (seq 0 16) = true) by reflexivity.
  rewrite forallb_forall in Htable.
  rewrite <- (N2Nat.id n). apply Htable, in_seq. lia.
Qed.

Lemma quote_byte_safe b : b < 256 -> forallb url_safe (quote_byte b) = true.
Proof.
  intros Hb. unfold quote_byte.
  destruct (is_unreserved b) eqn:Hu.
  { cbn. unfold url_safe. by rewrite Hu. }
  destruct (b =? ch " "); [reflexivity|].
  cbn [forallb]. unfold url_safe at 2 3.
  rewrite !hex_digit_safe.
  - reflexivity.
  - apply N.mod_lt. lia.
  - apply N.Div0.div_lt_upper_bound. lia.
Qed.

Lemma utf8_bytes c bs : utf8 c = Some bs -> Forall (fun b => b < 256) bs.
Proof.
  unfold utf8. intros H.
  assert (Hm : forall x, x mod 64 < 64) by (intros; apply N.mod_lt; lia).
  repeat match type of H with
         | (if ?b then _ else _) = _ => destruct b eqn:?
         end; simplify_eq; repeat constructor;
    repeat match goal with
           | E : (_ <? _) = true |- _ => apply N.ltb_lt in E
           | E : (_ <? _) = false |- _ => apply N.ltb_ge in E
           end.
  - lia.
  - assert (c / 64 < 32) by (apply N.Div0.div_lt_upper_bound; lia). lia.
  - specialize (Hm c). lia.
  - assert (c / 4096 < 16) by (apply N.Div0.div_lt_upper_bound; lia). lia.
  - specialize (Hm (c / 64)). lia.
  - specialize (Hm c). lia.
  - assert (c / 262144 < 5) by (apply N.Div0.div_lt_upper_bound; lia). lia.
  - specialize (Hm (c / 4096)). lia.
  - specialize (Hm (c / 64)). lia.
  - specialize (Hm c). lia.
Qed.

Lemma encode_utf8_bytes s bs :
  encode_utf8 s = Some bs -> Forall (fun b => b < 256) bs.
Proof.
  revert bs. induction s as [|c s IH]; intros bs; cbn [encode_utf8].
  - by intros [= <-].
  - destruct (utf8 c) as [e|] eqn:Hc; [|done].
    destruct (encode_utf8 s) as [more|]; [|done]. intros [= <-].
    apply Forall_app. split; [by eapply utf8_bytes|by apply IH].
Qed.

Lemma quote_bytes_safe bs :
  Forall (fun b => b < 256) bs ->
  forallb url_safe (flat_map quote_byte bs) = true.
Proof.
  induction 1 as [|b bs Hb _ IH]; [done|].
  cbn [flat_map]. rewrite forallb_app, IH, quote_byte_safe by done. done.
Qed.

(** X18. The links of [search] carry the query as one parameter and
    nothing else: what follows [q=] is made of letters, digits, [_.-~],
    [+] and [%] only, so no character of the query can end the parameter,
    start another one or start a fragment; and the three buttons get this
    same parameter after their fixed addresses. *)
Theorem search_query_is_one_parameter w ctx query param st :
  urlencode_q query = Some param ->
  take 2 param = lit "q=" /\
  forallb url_safe (drop 2 param) = true /\
  requests (search w ctx query) st =
  [CtxRespondView
     (lit "Use the buttons below to search for `" ++ query
      ++ lit "` on the internet.")
     [(lit "Google", lit "https://www.google.com/search?" ++ param);
      (lit "Bing", lit "https://www.bing.com/search?" ++ param);
      (lit "DuckDuckGo", lit "https://www.duckduckgo.com/?" ++ param)]].
Proof.
  intros Hq. split_and!.
  - unfold urlencode_q in Hq. destruct (quote_plus query); by simplify_eq.
  - unfold urlencode_q, quote_plus in Hq.
    destruct (encode_utf8 query) as [bs|] eqn:Hb; [|done]. simplify_eq.
    change (drop 2 (lit "q=" ++ ?x)) with x.
    apply quote_bytes_safe. by eapply encode_utf8_bytes.
  - unfold requests, made, search. rewrite Hq. unfold ccall.
    cbn [snd calls]. by rewrite drop_app_length.
Qed.

Lemma search_query_is_one_parameter_witness :
  urlencode_q (lit "a&b=c #d") = Some (lit "q=a%26b%3Dc+%23d") /\
  forallb url_safe (drop 2 (lit "q=a%26b%3Dc+%23d")) = true.
Proof.
  assert (H : urlencode_q (lit "a&b=c #d") = Some (lit "q=a%26b%3Dc+%23d"))
    by (vm_compute; reflexivity).
  split; [exact H|].
  destruct (search_query_is_one_parameter ccalm
              {| ctx_author_id := 1; ctx_author_str := []; ctx_author_avatar := [];
                 ctx_guild_id := 1; ctx_guild_emojis := [] |}
              _ _ {| suggestions_of := ∅; calls := [] |} H) as (_ & H2 & _).
  exact H2.
Defined.

Lemma hex_digit_inj n m : n < 16 -> m < 16 -> hex_digit n = hex_digit m -> n = m.
Proof.
  unfold hex_digit. intros Hn Hm.
  change (ch "0") with 48. change (ch "A") with 65.
  destruct (n <? 10) eqn:En, (m <? 10) eqn:Em;
    rewrite ?N.ltb_lt, ?N.ltb_ge in *; lia.
Qed.

Lemma byte_of_nibbles b1 b2 :
  b1 / 16 = b2 / 16 -> b1 mod 16 = b2 mod 16 -> b1 = b2.
Proof.
  intros Hd Hm.
  rewrite (N.div_mod b1 16), (N.div_mod b2 16) by lia. by rewrite Hd, Hm.
Qed.

(** The encoding of a byte can be told from what follows it. *)
Lemma quote_byte_prefix_free b1 b2 r1 r2 :
  b1 < 256 -> b2 < 256 ->
  quote_byte b1 ++ r1 = quote_byte b2 ++ r2 -> b1 = b2 /\ r1 = r2.
Proof.
  intros H1 H2. unfold quote_byte.
  assert (Hplus : is_unreserved (ch "+") = false) by reflexivity.
  assert (Hpct : is_unreserved (ch "%") = false) by reflexivity.
  destruct (is_unreserved b1) eqn:U1, (is_unreserved b2) eqn:U2;
    [| destruct (b2 =? ch " ") eqn:S2
     | destruct (b1 =? ch " ") eqn:S1
     | destruct (b1 =? ch " ") eqn:S1, (b2 =? ch " ") eqn:S2];
    cbn [app]; intros E; simplify_eq; try done; try congruence.
  - apply N.eqb_eq in S1, S2. by subst.
  - assert (b1 / 16 = b2 / 16).
    { apply hex_digit_inj; [apply N.Div0.div_lt_upper_bound; lia..|done]. }
    assert (b1 mod 16 = b2 mod 16).
    { apply hex_digit_inj; [apply N.mod_lt; lia..|done]. }
    split; [by apply byte_of_nibbles|done].
Qed.

Lemma quote_bytes_inj bs1 bs2 :
  Forall (fun b => b < 256) bs1 -> Forall (fun b => b < 256) bs2 ->
  flat_map quote_byte bs1 = flat_map quote_byte bs2 -> bs1 = bs2.
Proof.
  intros H1. revert bs2. induction H1 as [|b1 bs1 Hb1 _ IH]; intros bs2 H2 E.
  - destruct H2 as [|b2 bs2 Hb2 _]; [done|]. cbn [flat_map] in E.
    unfold quote_byte in E.
    by destruct (is_unreserved b2), (b2 =? ch " ").
  - destruct H2 as [|b2 bs2 Hb2 H2].
    + cbn [flat_map] in E. unfold quote_byte in E.
      by destruct (is_unreserved b1), (b1 =? ch " ").
    + cbn [flat_map] in E.
      apply quote_byte_prefix_free in E as [-> E]; [|done..].
      f_equal. by apply IH.
Qed.

(** The encoding of a code point can be told from what follows it. *)
Lemma utf8_prefix_free c1 c2 e1 e2 r1 r2 :
  utf8 c1 = Some e1 -> utf8 c2 = Some e2 ->
  e1 ++ r1 = e2 ++ r2 -> c1 = c2 /\ r1 = r2.
Proof.
  unfold utf8. intros H1 H2 E.
  assert (Hdm : forall x, x = 64 * (x / 64) + x mod 64)
    by (intros; apply N.div_mod; lia).
  assert (Hm : forall x, x mod 64 < 64) by (intros; apply N.mod_lt; lia).
  assert (Hd64 : forall x k, x < 64 * k -> x / 64 < k)
    by (intros; apply N.Div0.div_lt_upper_bound; lia).
  assert (Hq : forall x, x / 4096 = x / 64 / 64)
    by (intros; rewrite N.Div0.div_div; reflexivity).
  assert (Hq2 : forall x, x / 262144 = x / 64 / 64 / 64)
    by (intros; rewrite !N.Div0.div_div; reflexivity).
  rewrite ?Hq, ?Hq2 in *.
  pose proof (Hd64 c1 2); pose proof (Hd64 c2 2);
  pose proof (Hd64 c1 32); pose proof (Hd64 c2 32);
  pose proof (Hd64 (c1 / 64) 16); pose proof (Hd64 (c2 / 64) 16);
  pose proof (Hd64 (c1 / 64 / 64) 5); pose proof (Hd64 (c2 / 64 / 64) 5);
  pose proof (Hd64 c1 1024); pose proof (Hd64 c2 1024);
  pose proof (Hd64 c1 17408); pose proof (Hd64 c2 17408);
  pose proof (Hd64 (c1 / 64) 272); pose proof (Hd64 (c2 / 64) 272);
  pose proof (Hdm c1); pose proof (Hdm c2);
  pose proof (Hdm (c1 / 64)); pose proof (Hdm (c2 / 64));
  pose proof (Hdm (c1 / 64 / 64)); pose proof (Hdm (c2 / 64 / 64));
  pose proof (Hm c1); pose proof (Hm c2);
  pose proof (Hm (c1 / 64)); pose proof (Hm (c2 / 64));
  pose proof (Hm (c1 / 64 / 64)); pose proof (Hm (c2 / 64 / 64)).
  clear Hdm Hm Hd64 Hq Hq2.
  repeat match type of H1 with
         | (if ?b then _ else _) = _ => destruct b eqn:?
         end; try discriminate H1; injection H1 as <-;
  repeat match type of H2 with
         | (if ?b then _ else _) = _ => destruct b eqn:?
         end; try discriminate H2; injection H2 as <-;
  cbn [app] in E; injection E as E;
  repeat match goal with
         | H : (_ <? _) = true |- _ => apply N.ltb_lt in H
         | H : (_ <? _) = false |- _ => apply N.ltb_ge in H
         | H : (_ && _) = false |- _ => clear H
         end;
  repeat match goal with
         | H : _ :: _ = _ :: _ |- _ => injection H as ? ?
         end;
  try (exfalso; lia);
  (split; [lia|congruence]).
Qed.

Lemma utf8_nonempty c e : utf8 c = Some e -> e ≠ [].
Proof.
  unfold utf8. intros H.
  repeat match type of H with
         | (if ?b then _ else _) = _ => destruct b
         end; by simplify_eq.
Qed.

Lemma encode_utf8_inj s1 s2 bs :
  encode_utf8 s1 = Some bs -> encode_utf8 s2 = Some bs -> s1 = s2.
Proof.
  revert s2 bs. induction s1 as [|c1 s1 IH]; intros [|c2 s2] bs;
    cbn [encode_utf8].
  - done.
  - intros [= <-]. destruct (utf8 c2) as [e|] eqn:Hc; [|done].
    destruct (encode_utf8 s2); [|done]. intros [= E].
    apply app_eq_nil in E as [-> _]. by apply utf8_nonempty in Hc.
  - destruct (utf8 c1) as [e|] eqn:Hc; [|done].
    destruct (encode_utf8 s1); [|done]. intros [= <-] [= E]. symmetry in E.
    apply app_eq_nil in E as [-> _]. by apply utf8_nonempty in Hc.
  - destruct (utf8 c1) as [e1|] eqn:Hc1; [|done].
    destruct (encode_utf8 s1) as [m1|] eqn:Hs1; [|done].
    destruct (utf8 c2) as [e2|] eqn:Hc2; [|done].
    destruct (encode_utf8 s2) as [m2|] eqn:Hs2; [|done].
    intros [= <-] [= E].
    destruct (utf8_prefix_free c2 c1 e2 e1 m2 m1 Hc2 Hc1 E) as [-> ->].
    f_equal. by eapply IH.
Qed.

(** X19. Different queries give different links: the parameter [urlencode]
    makes determines the query it was made from. *)
Theorem search_parameter_determines_query query1 query2 param :
  urlencode_q query1 = Some param ->
  urlencode_q query2 = Some param ->
  query1 = query2.
Proof.
  unfold urlencode_q, quote_plus.
  destruct (encode_utf8 query1) as [bs1|] eqn:H1; [|done].
  destruct (encode_utf8 query2) as [bs2|] eqn:H2; [|done].
  intros [= <-] [= E].
  apply quote_bytes_inj in E; [|by eapply encode_utf8_bytes..].
  subst bs2. by eapply encode_utf8_inj.
Qed.

Lemma search_parameter_determines_query_witness :
  urlencode_q (lit "a b") = Some (lit "q=a+b") /\
  forall query, urlencode_q query = Some (lit "q=a+b") -> query = lit "a b".
Proof.
  assert (H : urlencode_q (lit "a b") = Some (lit "q=a+b"))
    by (vm_compute; reflexivity).
  split; [exact H|].
  intros query Hq.
  exact (search_parameter_determines_query query (lit "a b") _ Hq H).
Defined.

(** X20. A query with a surrogate in it cannot be encoded: [search] raises
    before it responds, and nothing is sent. *)
Theorem search_refuses_surrogates w ctx query c st :
  c ∈ query ->
  55296 <= c < 57344 ->
  search w ctx query st = (Raised OtherError, st).
Proof.
  intros Hin Hc.
  assert (encode_utf8 query = None) as Henc.
  { induction query as [|d query IH]; [by apply elem_of_nil in Hin|].
    cbn [encode_utf8]. apply elem_of_cons in Hin as [<-|Hin].
    - assert (utf8 c = None) as ->; [|done]. unfold utf8.
      rewrite (proj2 (N.ltb_ge _ _)), (proj2 (N.ltb_ge _ _)) by lia.
      rewrite (proj2 (N.ltb_lt _ _)) by lia.
      rewrite (proj2 (N.leb_le _ _)), (proj2 (N.ltb_lt _ _)) by lia. done.
    - rewrite IH by done. by destruct (utf8 d). }
  unfold search, urlencode_q, quote_plus. by rewrite Henc.
Qed.

Lemma search_refuses_surrogates_witness :
  search ccalm
    {| ctx_author_id := 1; ctx_author_str := []; ctx_author_avatar := [];
       ctx_guild_id := 1; ctx_guild_emojis := [] |}
    (lit "ab" ++ [55357]) {| suggestions_of := ∅; calls := [] |}
  = (Raised OtherError, {| suggestions_of := ∅; calls := [] |}).
Proof.
  apply (search_refuses_surrogates _ _ _ 55357).
  - apply (bool_decide_eq_true_1 _). vm_compute. reflexivity.
  - lia.
Defined.

(** ** The reply to a message with references *)

Lemma split_on_line sep (s : pystr) : sep ∉ s -> split_on sep s = [s].
Proof.
  induction s as [|c s IH]; [done|].
  intros [Hc Hs]%not_elem_of_cons. cbn [split_on].
  rewrite decide_False by done. by rewrite IH.
Qed.

Lemma split_on_app sep (s t : pystr) :
  sep ∉ s -> split_on sep (s ++ sep :: t) = s :: split_on sep t.
Proof.
  induction s as [|c s IH]; intros Hs.
  - cbn [app split_on]. by rewrite decide_True.
  - apply not_elem_of_cons in Hs as [Hc Hs].
    cbn [app split_on]. rewrite decide_False by done. by rewrite IH.
Qed.

(** [sep.join(ls).split(sep)] gives [ls] back when no part holds [sep]. *)
Lemma split_on_join sep (ls : list pystr) :
  ls ≠ [] -> Forall (fun l => sep ∉ l) ls ->
  split_on sep (join [sep] ls) = ls.
Proof.
  induction ls as [|l ls IH]; [done|]. intros _ Hall.
  apply Forall_cons in Hall as [Hl Hls].
  destruct ls as [|l' ls]; [by apply split_on_line|].
  change (join [sep] (l :: l' :: ls)) with (l ++ sep :: join [sep] (l' :: ls)).
  rewrite split_on_app by done. by rewrite IH.
Qed.

Lemma forallb_not_elem_of (p : char -> bool) c (s : pystr) :
  forallb p s = true -> p c = false -> c ∉ s.
Proof.
  intros Hall Hc Hin. apply list_elem_of_In in Hin.
  rewrite forallb_forall in Hall. apply Hall in Hin. congruence.
Qed.

(** No URL taken from a message holds a line feed. *)
Lemma extract_urls_one_line unicode_Nd text url :
  url ∈ extract_urls unicode_Nd text -> LF ∉ url.
Proof.
  unfold extract_urls. intros Hin. apply list_elem_of_In in Hin.
  apply in_map_iff in Hin as ([[org repo] index] & <- & Hin).
  apply list_elem_of_In, findall_from_matches in Hin
    as (s' & caps & rest & _ & Hm & [= -> -> ->]).
  apply match_here_sound in Hm as (o & r & i & _ & Ho & Hr & _ & Hd & _ & ->).
  destruct (group_captures_of o r i) as (-> & -> & ->).
  destruct (default_names_ok unicode_Nd) as [Hdo Hdr].
  assert (Hname : forall s, forallb (is_name_char unicode_Nd) s = true -> LF ∉ s).
  { intros s Hs. by apply (forallb_not_elem_of _ _ _ Hs). }
  assert (Hlit : forall s : pystr, forallb (fun c => negb (c =? LF)) s = true ->
                                   LF ∉ s).
  { intros s Hs. by apply (forallb_not_elem_of _ _ _ Hs). }
  unfold make_link. cbn zeta. rewrite !not_elem_of_app. split_and!.
  - by apply Hlit.
  - destruct (truthy o); by apply Hname.
  - by apply Hlit.
  - destruct (truthy r); by apply Hname.
  - by apply Hlit.
  - by apply (forallb_not_elem_of _ _ _ Hd).
Qed.

(** Nor does a link of the reply, wrapped or not. *)
Lemma reply_links_one_line unicode_Nd set_iter text :
  set_order_ok set_iter ->
  Forall (fun l => LF ∉ l) (reply_links unicode_Nd set_iter text).
Proof.
  intros Hok.
  assert (Hlinks : Forall (fun l => LF ∉ l) (links unicode_Nd set_iter text)).
  { apply Forall_forall. intros l Hin.
    apply elem_of_take in Hin as (i & Hin & _).
    apply list_elem_of_lookup_2 in Hin. unfold url_set in Hin.
    apply (proj1 (proj2 (Hok _) _)) in Hin.
    exact (extract_urls_one_line _ _ _ Hin). }
  unfold reply_links. cbn zeta.
  destruct (2 <? length (links unicode_Nd set_iter text))%nat; [|done].
  apply Forall_fmap. eapply Forall_impl; [exact Hlinks|].
  intros l Hl. unfold angle.
  apply not_elem_of_app. split; [|apply not_elem_of_app; split; [done|]].
  - by apply (forallb_not_elem_of (fun c => negb (c =? LF)) _ (lit "<")).
  - by apply (forallb_not_elem_of (fun c => negb (c =? LF)) _ (lit ">")).
Qed.

(** A message without links is not replied to, whatever else happens. *)
Lemma on_message_no_links w unicode_Nd set_iter message st :
  links unicode_Nd set_iter (content message) = [] ->
  replies (emitted (on_message w unicode_Nd set_iter message) st) = [].
Proof.
  intros Hnone.
  destruct (bot (author message)) eqn:Hbot.
  { unfold emitted, on_message. rewrite Hbot. unfold ret. cbn [snd].
    by rewrite drop_all. }
  destruct (on_message_runs w unicode_Nd set_iter message st Hbot)
    as (res & evs & Hrun & _ & _ & Hpre & _).
  apply emitted_runs in Hrun as (_ & _ & ->).
  assert (reply_links unicode_Nd set_iter (content message) = []) as Hsent.
  { apply length_zero_iff_nil. by rewrite reply_links_length, Hnone. }
  rewrite Hsent in Hpre. by apply prefix_nil_inv in Hpre.
Qed.

(** Once the two AFK phases are through, the reply is attempted. *)
Lemma on_message_reaches_reply w unicode_Nd set_iter message st :
  bot (author message) = false ->
  fst ((afk_clear w message ;;; afk_notify w message) st) = Ok tt ->
  replies (emitted (on_message w unicode_Nd set_iter message) st) =
  link_reply (reply_links unicode_Nd set_iter (content message)).
Proof.
  intros Hbot Hfst.
  destruct (afk_clear_runs w message st) as (r1 & e1 & H1 & _ & _ & Hrp1 & _).
  pose proof (runs_bind _
    (afk_notify w message ;;; expand_references w unicode_Nd set_iter message)
    _ _ _ _ H1) as HB.
  unfold bind at 1 in Hfst. unfold runs in H1. rewrite H1 in Hfst.
  destruct r1 as [[]|e]; [|done].
  set (st1 := {| cache_afk := _; trace := _ |}) in *.
  destruct (afk_notify_runs w message st1) as (r2 & e2 & H2 & _ & Hrp2 & _).
  pose proof (runs_bind _ (expand_references w unicode_Nd set_iter message)
                _ _ _ _ H2) as HB2.
  unfold runs in H2. rewrite H2 in Hfst. cbn [fst] in Hfst. subst r2.
  set (st2 := {| cache_afk := _; trace := _ |}) in HB2.
  destruct (expand_references_runs w unicode_Nd set_iter message st2)
    as (r3 & e3 & H3 & _ & _ & Hrp3).
  assert (runs (on_message w unicode_Nd set_iter message) st r3
               (delete (uid (author message)) (cache_afk st))
               (e1 ++ e2 ++ e3)) as Hrun.
  { unfold on_message. rewrite Hbot. by apply HB, HB2. }
  apply emitted_runs in Hrun as (_ & _ & ->).
  by rewrite !replies_app, Hrp1, Hrp2, Hrp3.
Qed.

(** C6. More than two links: each is sent inside angle brackets.  Two or
    fewer: they are sent as they are, and none starts with a bracket.  A
    message without links gets no reply.  A message of a human author with
    links gets one reply, once the AFK-clearing and the AFK notices before it
    have raised nothing: the links joined by line feeds, one link to a
    line, so that splitting the text at the line feeds gives the links
    back. *)
Theorem reply_wrapping w unicode_Nd set_iter message st :
  set_order_ok set_iter ->
  let found := links unicode_Nd set_iter (content message) in
  let sent := reply_links unicode_Nd set_iter (content message) in
  ((2 < length found)%nat -> sent = List.map angle found) /\
  ((length found <= 2)%nat ->
   sent = found /\ forall l, l ∈ sent -> startswith (lit "<") l = false) /\
  (found = [] ->
   replies (emitted (on_message w unicode_Nd set_iter message) st) = []) /\
  (found ≠ [] ->
   bot (author message) = false ->
   fst ((afk_clear w message ;;; afk_notify w message) st) = Ok tt ->
   replies (emitted (on_message w unicode_Nd set_iter message) st) =
   [join newline sent]) /\
  (found ≠ [] -> split_on LF (join newline sent) = sent).
Proof.
  intros Hok found sent.
  assert (found ≠ [] -> sent ≠ []) as Hne.
  { intros Hf Hs. apply Hf, length_zero_iff_nil.
    unfold found, sent in *.
    by rewrite <- (reply_links_length unicode_Nd set_iter), Hs. }
  split_and!.
  - intros Hlen. unfold sent, reply_links. cbn zeta. fold found.
    by rewrite (proj2 (Nat.ltb_lt _ _) Hlen).
  - intros Hlen.
    assert (sent = found) as Hsent.
    { unfold sent, reply_links. cbn zeta. fold found.
      by rewrite (proj2 (Nat.ltb_ge _ _) Hlen). }
    split; [done|]. rewrite Hsent. intros l Hin.
    apply elem_of_take in Hin as (i & Hin & _).
    apply list_elem_of_lookup_2, Hok, extract_urls_github in Hin as [rest ->].
    reflexivity.
  - apply on_message_no_links.
  - intros Hf Hbot Hfst.
    rewrite on_message_reaches_reply by done.
    apply Hne in Hf. unfold link_reply, sent in *.
    by destruct (reply_links unicode_Nd set_iter (content message)).
  - intros Hf. apply split_on_join; [by apply Hne|].
    by apply reply_links_one_line.
Qed.

Lemma reply_wrapping_witness :
  fst ((afk_clear calm bob_cites_three ;;; afk_notify calm bob_cites_three)
         fresh) = Ok tt /\
  replies (emitted (on_message calm no_extra_digits kept_last bob_cites_three)
                   fresh)
  = [lit "<https://github.com/Pycord-Development/pycord/pull/1>" ++ newline ++
     lit "<https://github.com/Pycord-Development/pycord/pull/2>" ++ newline ++
     lit "<https://github.com/Pycord-Development/pycord/pull/3>"] /\
  split_on LF
    (lit "<https://github.com/Pycord-Development/pycord/pull/1>" ++ newline ++
     lit "<https://github.com/Pycord-Development/pycord/pull/2>" ++ newline ++
     lit "<https://github.com/Pycord-Development/pycord/pull/3>")
  = [lit "<https://github.com/Pycord-Development/pycord/pull/1>";
     lit "<https://github.com/Pycord-Development/pycord/pull/2>";
     lit "<https://github.com/Pycord-Development/pycord/pull/3>"].
Proof.
  assert (Hfound : links no_extra_digits kept_last (content bob_cites_three)
                   ≠ []) by (vm_compute; discriminate).
  assert (Hsent : reply_links no_extra_digits kept_last (content bob_cites_three)
                  = [lit "<https://github.com/Pycord-Development/pycord/pull/1>";
                     lit "<https://github.com/Pycord-Development/pycord/pull/2>";
                     lit "<https://github.com/Pycord-Development/pycord/pull/3>"])
    by (vm_compute; reflexivity).
  destruct (reply_wrapping calm no_extra_digits kept_last bob_cites_three fresh
              kept_last_ok) as (_ & _ & _ & Hreply & Hsplit).
  split; [reflexivity|].
  specialize (Hreply Hfound eq_refl eq_refl). specialize (Hsplit Hfound).
  rewrite Hsent in Hreply, Hsplit. split; [exact Hreply | exact Hsplit].
Defined.

(** C6, the other way.  The wave of line 232 is not guarded: when the
    platform refuses it, [on_message] stops there, and the link of the
    message is found but never sent. *)
Lemma refused_wave_no_reply :
  bot (author alice_returns) = false /\
  links no_extra_digits kept_last (content alice_returns)
  = [lit "https://github.com/Pycord-Development/pycord/pull/7"] /\
  fst (on_message reactions_denied no_extra_digits kept_last alice_returns
         both_away) = Raised HTTPException /\
  replies (emitted (on_message reactions_denied no_extra_digits kept_last
                      alice_returns) both_away) = [].
Proof. split_and!; vm_compute; reflexivity. Qed.
